(** * Pong: the trajectory and collision engine of [src/pong/main.cpp]

    The C++ [float] quantities of the game are embedded as exact rationals
    ([Q]); rounding and overflow are not modelled.  An IEEE division whose
    divisor is zero has no rational value and is kept apart as [None].
    A [Ball] holds numbers: a ball whose position is NaN, as the colinear
    branch of [Paddle::update] can leave one, is outside the model, and what
    is stated of balls is stated of balls whose position and angle are
    numbers.
    The collaborators the file includes but does not define (the SFML
    extension header, the screen refresh rate, the random engines) are
    gathered in a [Platform] record and in per-call [Draws]. *)

From Stdlib Require Import QArith Qround Qfield ZArith List Bool Lia Lqa.
Import ListNotations.

Local Open Scope Q_scope.

(** ** Numbers *)

Definition Qleb (a b : Q) : bool := Qle_bool a b.
Definition Qltb (a b : Q) : bool := negb (Qle_bool b a).

(** [std::abs] on floats. *)
Definition fabs (a : Q) : Q := if Qltb a 0 then - a else a.

(** [std::clamp ( v, lo, hi )]: [(v < lo) ? lo : (hi < v) ? hi : v]. *)
Definition clamp (v lo hi : Q) : Q :=
  if Qltb v lo then lo else if Qltb hi v then hi else v.

(** Conversion of a float to [sf::Int32]: truncation toward zero. *)
Definition to_int32 (q : Q) : Z := Z.quot (Qnum q) (Zpos (Qden q)).

(** [FLT_EPSILON] of the 32-bit float type, 2^-23. *)
Definition FLT_EPSILON : Q := 1 # 8388608.

(** [pong::equal] and [pong::not_equal]. *)
Definition equal (a_ b_ : Q) : bool := Qltb (fabs (b_ - a_)) (4 * FLT_EPSILON).
Definition not_equal (a_ b_ : Q) : bool := Qleb (4 * FLT_EPSILON) (fabs (b_ - a_)).

(** A float division.  The divisor is written to a log, and the quotient of
    a division by zero (NaN or an infinity in the program) is [None]. *)
Definition Logged (A : Type) : Type := (A * list Q)%type.

Definition ret {A : Type} (a : A) : Logged A := (a, []).

Definition bind {A B : Type} (m : Logged A) (f : A -> Logged B) : Logged B :=
  let (a, l1) := m in let (b, l2) := f a in (b, l1 ++ l2).

Definition fdiv (a b : Q) : Logged (option Q) :=
  (if Qeq_bool b 0 then None else Some (a / b), [b]).

Notation "x <- m ;; k" := (bind m (fun x => k))
  (at level 61, m at next level, right associativity).

(** ** Points *)

Record Point : Type := mkPoint { px : Q; py : Q }.

Definition padd (a b : Point) : Point := mkPoint (px a + px b) (py a + py b).
Definition psub (a b : Point) : Point := mkPoint (px a - px b) (py a - py b).
Definition pscale (k : Q) (a : Point) : Point := mkPoint (k * px a) (k * py a).

Definition Peq (a b : Point) : Prop := px a == px b /\ py a == py b.

(** ** Collaborators

    What [SFML/Extensions.hpp], [<cmath>] and the display supply. *)

Record Platform : Type := mkPlatform {
  pi : Q;                         (* sf::pi *)
  fsin : Q -> Q;                  (* std::sin *)
  fcos : Q -> Q;                  (* std::cos *)
  half_pi : Q;                    (* sf::half_pi *)
  clampRadians : Q -> Q;          (* sf::clampRadians *)
  makeOdd : Q -> bool -> Q;       (* sf::makeOdd ( float, bool ) *)
  refresh_rate : Z                (* sf::getScreenRefreshRate ( ) *)
}.

(** The values one call takes from its random engine: the Bernoulli toss, the
    canonical uniform variate behind [UniDisf] and the standard normal
    variate behind [NorDisf]. *)
Record Draws : Type := mkDraws { coin : bool; unif : Q; gauss : Q }.

(** [UniDisf ( a, b ) ( rng )] and [NorDisf ( mean, sd ) ( rng )]. *)
Definition UniDisf (a b : Q) (d : Draws) : Q := a + (b - a) * unif d.
Definition NorDisf (mean sd : Q) (d : Draws) : Q := mean + sd * gauss d.

(** ** Score *)

Record Score : Type := mkScore { m_left : Z; m_right : Z }.

Definition has_won (s : Score) : bool :=
  (10 <? m_left s)%Z || (10 <? m_right s)%Z.

(** ** Ball *)

(** [enum class Direction : sf::Int32].  The field is written by a cast from
    a float, so it is kept as the underlying integer. *)
Definition Direction : Type := Z.
Definition MovesToRight : Direction := 0%Z.
Definition MovesToLeft : Direction := 1%Z.

Inductive Event : Type := EvNone | HitWall | Missed.

Record Ball : Type := mkBall {
  m_position : Point;             (* m_shape.getPosition ( ) *)
  m_angle : Q;
  m_speed_increment : Q;
  m_speed : Q;
  m_min : Point;
  m_max : Point;
  m_direction : Direction;
  m_previous_position : Point;
  m_pause : Q
}.

Definition bool_Q (b : bool) : Q := if b then 1 else 0.
Definition bool_Z (b : bool) : Z := if b then 1%Z else 0%Z.

Section Engine.

Variable P : Platform.

(** [sf::Force ( std::sin ( a ), std::cos ( a ) )]. *)
Definition Force (a : Q) : Point := mkPoint (fsin P a) (fcos P a).

(** [( Direction ) ( angle / sf::pi )]. *)
Definition direction_of_angle (a : Q) : Direction := to_int32 (a / pi P).

(** The per-frame quantum [1'000'000.0f / sf::getScreenRefreshRate ( )]. *)
Definition inc : Q := 1000000 / inject_Z (refresh_rate P).

(** [Ball::Ball]; the bounds and the position are set by [create]. *)
Definition Ball_new (d : Draws) : Ball :=
  let angle := UniDisf ((333 # 1000) * pi P) ((666 # 1000) * pi P) d in
  let speed_increment := 60 / inject_Z (refresh_rate P) in
  {| m_position := mkPoint 0 0;
     m_angle := angle;
     m_speed_increment := speed_increment;
     m_speed := 10 * speed_increment;
     m_min := mkPoint 0 0;
     m_max := mkPoint 0 0;
     m_direction := direction_of_angle angle;
     m_previous_position := mkPoint 0 0;
     m_pause := 0 |}.

(** [Ball::new_ball]: writes the angle and the speed of the ball and returns
    the position it stores through its reference argument. *)
Definition new_ball (b : Ball) (d : Draws) : Ball * Point :=
  let coin_toss := coin d in
  let angle :=
    if (m_direction b =? MovesToLeft)%Z then
      if coin_toss then UniDisf ((122 # 100) * pi P) ((133 # 100) * pi P) d
      else UniDisf ((166 # 100) * pi P) ((178 # 100) * pi P) d
    else
      if coin_toss then UniDisf ((66 # 100) * pi P) ((78 # 100) * pi P) d
      else UniDisf ((22 # 100) * pi P) ((33 # 100) * pi P) d in
  let position :=
    mkPoint ((px (m_max b) - px (m_min b)) * (1 # 2) + px (m_min b))
            ((py (m_max b) - py (m_min b)) * ((1 # 10) + bool_Q coin_toss * (8 # 10))
             + py (m_min b)) in
  ({| m_position := m_position b;
      m_angle := angle;
      m_speed_increment := m_speed_increment b;
      m_speed := 10;
      m_min := m_min b;
      m_max := m_max b;
      m_direction := m_direction b;
      m_previous_position := m_previous_position b;
      m_pause := m_pause b |}, position).

(** [Ball::pause]. *)
Definition Ball_pause (b : Ball) (microseconds_ : Q) : Ball :=
  {| m_position := m_position b; m_angle := m_angle b;
     m_speed_increment := m_speed_increment b; m_speed := m_speed b;
     m_min := m_min b; m_max := m_max b; m_direction := m_direction b;
     m_previous_position := m_previous_position b; m_pause := microseconds_ |}.

(** The horizontal test of [Ball::update]. *)
Definition out_x (b : Ball) (p : Point) : bool :=
  Qltb (px p) (px (m_min b)) || Qltb (px (m_max b)) (px p).

(** The vertical test of [Ball::update]. *)
Definition out_y (b : Ball) (p : Point) : bool :=
  Qltb (py p) (py (m_min b)) || Qltb (py (m_max b)) (py p).

(** [Ball::update].  [dm] feeds [new_ball], [dw] the wall reflection. *)
Definition Ball_update (b : Ball) (score_ : Score) (dm dw : Draws)
  : Event * Ball * Score :=
  if Qltb 0 (m_pause b) then
    (EvNone, Ball_pause b (m_pause b - inc), score_)
  else
    let previous := m_position b in
    let b0 := {| m_position := m_position b; m_angle := m_angle b;
                 m_speed_increment := m_speed_increment b; m_speed := m_speed b;
                 m_min := m_min b; m_max := m_max b; m_direction := m_direction b;
                 m_previous_position := previous; m_pause := 0 |} in
    let new_position := padd previous (pscale (m_speed b0) (Force (m_angle b0))) in
    let '(event, b1, new_position, score_) :=
      if out_x b0 new_position then
        let score1 :=
          {| m_left := (m_left score_
                        + bool_Z (Qltb (px (m_max b0)) (px new_position)))%Z;
             m_right := (m_right score_
                         + bool_Z (Qltb (px new_position) (px (m_min b0))))%Z |} in
        let (bn, pn) := new_ball b0 dm in
        (Missed, bn, pn, score1)
      else (EvNone, b0, new_position, score_) in
    let '(event, b2, new_position) :=
      if out_y b1 new_position then
        let angle :=
          clampRadians P (pi P - m_angle b1 + NorDisf 0 (125 # 10000) dw) in
        (HitWall,
         {| m_position := m_position b1; m_angle := angle;
            m_speed_increment := m_speed_increment b1; m_speed := m_speed b1;
            m_min := m_min b1; m_max := m_max b1;
            m_direction := direction_of_angle angle;
            m_previous_position := m_previous_position b1;
            m_pause := m_pause b1 |},
         mkPoint (px new_position)
                 (if Qltb (py new_position) (py (m_min b1))
                  then py (m_min b1) else py (m_max b1)))
      else (event, b1, new_position) in
    (event,
     {| m_position := new_position; m_angle := m_angle b2;
        m_speed_increment := m_speed_increment b2; m_speed := m_speed b2;
        m_min := m_min b2; m_max := m_max b2; m_direction := m_direction b2;
        m_previous_position := m_previous_position b2; m_pause := m_pause b2 |},
     score_).

(** ** Paddle *)

Inductive Side : Type := Left | Right.

Definition Side_eqb (a b : Side) : bool :=
  match a, b with Left, Left | Right, Right => true | _, _ => false end.

Record Paddle : Type := mkPaddle {
  m_mouse_min : Q;
  m_mouse_max : Q;
  m_paddle_length : Q;
  m_paddle_detector_length : Q;
  m_paddle_detector_offset : Point;
  m_paddle_sectors : Z;
  m_shape_position : Point;       (* m_shape.getPosition ( ), origin centred *)
  m_min_y : Q;
  m_max_y : Q;
  m_ratio_y : Q;
  m_side : Side;
  m_paddle_pause : Q
}.

Definition set_shape_position (p : Paddle) (pos : Point) : Paddle :=
  {| m_mouse_min := m_mouse_min p; m_mouse_max := m_mouse_max p;
     m_paddle_length := m_paddle_length p;
     m_paddle_detector_length := m_paddle_detector_length p;
     m_paddle_detector_offset := m_paddle_detector_offset p;
     m_paddle_sectors := m_paddle_sectors p;
     m_shape_position := pos;
     m_min_y := m_min_y p; m_max_y := m_max_y p; m_ratio_y := m_ratio_y p;
     m_side := m_side p; m_paddle_pause := m_paddle_pause p |}.

(** [Paddle::pause]. *)
Definition Paddle_pause (p : Paddle) (microseconds_ : Q) : Paddle :=
  {| m_mouse_min := m_mouse_min p; m_mouse_max := m_mouse_max p;
     m_paddle_length := m_paddle_length p;
     m_paddle_detector_length := m_paddle_detector_length p;
     m_paddle_detector_offset := m_paddle_detector_offset p;
     m_paddle_sectors := m_paddle_sectors p;
     m_shape_position := m_shape_position p;
     m_min_y := m_min_y p; m_max_y := m_max_y p; m_ratio_y := m_ratio_y p;
     m_side := m_side p; m_paddle_pause := microseconds_ |}.

(** [m_shape.getGlobalBounds ( ).top] of the rectangle of height
    [m_paddle_length] whose origin [sf::centreOrigin] put at its centre. *)
Definition shape_top (p : Paddle) : Q :=
  py (m_shape_position p) - m_paddle_length p / 2.

(** [m_paddle_sectors / 2u]: the division is done on [unsigned]. *)
Definition half_sectors (p : Paddle) : Z :=
  ((m_paddle_sectors p mod 2 ^ 32) / 2)%Z.

(** [Paddle::sector_hit]. *)
Definition sector_hit (p : Paddle) (ball_ : Ball) : Q :=
  clamp ((py (m_position ball_) - shape_top p) / m_paddle_length p) 0 (999 # 1000)
    * inject_Z (m_paddle_sectors p)
  - inject_Z (half_sectors p).

(** The angle [Paddle::return_ball] stores in the ball. *)
Definition return_angle (p : Paddle) (ball_ : Ball) (db : Draws) : Q :=
  let epsilon := (1 # 100) * pi P in
  let zero_pi_or_one_pi :=
    bool_Q (MovesToRight =? m_direction ball_)%Z * pi P in
  let angle := half_pi P + zero_pi_or_one_pi in
  let angle :=
    angle + (75 # 1000) * (if Side_eqb Right (m_side p)
                           then sector_hit p ball_ else - sector_hit p ball_) in
  let angle := angle + NorDisf 0 (25 # 1000) db in
  clamp angle (zero_pi_or_one_pi + epsilon) (pi P + zero_pi_or_one_pi - epsilon).

(** [Paddle::return_ball]. *)
Definition return_ball (p : Paddle) (ball_ : Ball) (intersection_ : Point)
    (ratio_ : Q) (db : Draws) : Ball :=
  let angle := return_angle p ball_ db in
  let speed := m_speed ball_ + m_speed_increment ball_ in
  {| m_position := padd intersection_ (pscale (speed * ratio_) (Force angle));
     m_angle := angle;
     m_speed_increment := m_speed_increment ball_;
     m_speed := speed;
     m_min := m_min ball_; m_max := m_max ball_;
     m_direction := direction_of_angle angle;
     m_previous_position := m_previous_position ball_;
     m_pause := m_pause ball_ |}.

(** What [Paddle::update] leaves behind besides the paddle: [false]; [true]
    with the ball as [return_ball] wrote it; [true] with a ball whose
    position came out of a division by zero.  The program goes on with that
    last ball (its angle, direction and speed written, its position NaN);
    the model does not follow it. *)
Inductive Outcome : Type :=
| NoHit
| Hit (b : Ball)
| HitNonFinite.

Definition hit (o : Outcome) : bool :=
  match o with NoHit => false | Hit _ | HitNonFinite => true end.

(** The early [return false] of [Paddle::update]. *)
Definition rejected (p : Paddle) (ball_ : Ball) (ball_position_ detector : Point)
  : bool :=
  match m_side p with
  | Left =>
      (MovesToRight =? m_direction ball_)%Z
      || (Qltb (px detector) (px ball_position_)
          || Qltb (px (m_previous_position ball_)) (px detector))
  | Right =>
      (MovesToLeft =? m_direction ball_)%Z
      || (Qltb (px ball_position_) (px detector)
          || Qltb (px detector) (px (m_previous_position ball_)))
  end.

(** [Paddle::update]. *)
Definition update (p : Paddle) (ball_ : Ball) (ball_position_ paddle_position_ : Point)
    (db : Draws) : Logged (Paddle * Outcome) :=
  let p' := set_shape_position p paddle_position_ in
  let paddle_position_ := padd paddle_position_ (m_paddle_detector_offset p') in
  if rejected p' ball_ ball_position_ paddle_position_ then ret (p', NoHit)
  else
    let intersection := psub ball_position_ (m_previous_position ball_) in
    if not_equal 0 (px intersection) then
      s <- fdiv (py intersection) (px intersection) ;;
      match s with
      | None => ret (p', NoHit)
      | Some s =>
          let y := s * (px paddle_position_ - px ball_position_) + py ball_position_ in
          if Qleb (py paddle_position_) y
             && Qleb y (py paddle_position_ + m_paddle_detector_length p')
          then
            r <- fdiv (px ball_position_ - px (m_previous_position ball_))
                      (px ball_position_ - px (m_previous_position ball_)) ;;
            match r with
            | None => ret (p', HitNonFinite)
            | Some r =>
                ret (p', Hit (return_ball p' ball_
                                (mkPoint (px paddle_position_) y) r db))
            end
          else ret (p', NoHit)
      end
    else
      let intersection :=
        if Qltb (py paddle_position_) (py (m_previous_position ball_))
        then mkPoint (px paddle_position_)
                     (py paddle_position_ + m_paddle_detector_length p')
        else paddle_position_ in
      q <- fdiv (px intersection - px (m_previous_position ball_))
                (px ball_position_ - px (m_previous_position ball_)) ;;
      match q with
      | None => ret (p', HitNonFinite)
      | Some q => ret (p', Hit (return_ball p' ball_ intersection (1 - q) db))
      end.

(** [Paddle::update_player]; [mouse_y] is the pointer ordinate read from the
    window. *)
Definition update_player (p : Paddle) (ball_ : Ball) (mouse_y : Q) (db : Draws)
  : Logged (Paddle * Outcome) :=
  if Qltb 0 (m_paddle_pause p) then
    ret (Paddle_pause p (m_paddle_pause p - inc), NoHit)
  else
    let p := Paddle_pause p 0 in
    let ball_position := m_position ball_ in
    let paddle_position :=
      mkPoint (px (m_shape_position p))
              (m_min_y p + m_ratio_y p
               * (clamp mouse_y (m_mouse_min p) (m_mouse_max p) - m_mouse_min p)) in
    update p ball_ ball_position paddle_position db.

(** [Paddle::is_y_in_paddle]. *)
Definition is_y_in_paddle (p : Paddle) (paddle_centre_y_ y_ : Q) : bool :=
  Qltb (paddle_centre_y_ - (4 # 10) * m_paddle_length p) y_
  && Qltb y_ (paddle_centre_y_ + (4 # 10) * m_paddle_length p).

(** The ordinate the computer compares its paddle with: the ball when it
    comes this way, the middle of the travel range otherwise. *)
Definition reference_y (p : Paddle) (ball_ : Ball) (ball_position : Point) : Q :=
  if match m_side p with
     | Left => (MovesToLeft =? m_direction ball_)%Z
     | Right => (MovesToRight =? m_direction ball_)%Z
     end
  then py ball_position
  else (m_min_y p + m_max_y p) / 2.

(** The paddle position [Paddle::update_computer] passes on to [update]. *)
Definition computer_position (p : Paddle) (ball_ : Ball) (dp : Draws) : Point :=
  let ball_position := m_position ball_ in
  let paddle_position := m_shape_position p in
  if negb (is_y_in_paddle p (py paddle_position) (py ball_position)) then
    if Qltb (reference_y p ball_ ball_position) (py paddle_position) then
      let new_paddle_position_y :=
        makeOdd P (py paddle_position - 9
                   + 9 * UniDisf (- (7 # 15)) (7 # 15) dp) false in
      if Qltb (m_min_y p) new_paddle_position_y then
        if Qltb (py ball_position) new_paddle_position_y then
          mkPoint (px paddle_position) new_paddle_position_y
        else paddle_position
      else paddle_position
    else
      let new_paddle_position_y :=
        makeOdd P (py paddle_position + 9
                   + 9 * UniDisf (- (7 # 15)) (7 # 15) dp) true in
      if Qltb new_paddle_position_y (m_max_y p) then
        if Qltb new_paddle_position_y (py ball_position) then
          mkPoint (px paddle_position) new_paddle_position_y
        else paddle_position
      else paddle_position
  else paddle_position.

(** [Paddle::update_computer]. *)
Definition update_computer (p : Paddle) (ball_ : Ball) (dp db : Draws)
  : Logged (Paddle * Outcome) :=
  if Qltb 0 (m_paddle_pause p) then
    ret (Paddle_pause p (m_paddle_pause p - inc), NoHit)
  else
    let p := Paddle_pause p 0 in
    update p ball_ (m_position ball_) (computer_position p ball_ dp) db.

End Engine.

(** * What the properties are stated with *)

(** ** Direction and angle *)



(** The ball a frame leaves behind. *)
Definition ball_of (r : Event * Ball * Score) : Ball := snd (fst r).
Definition event_of (r : Event * Ball * Score) : Event := fst (fst r).
Definition score_of (r : Event * Ball * Score) : Score := snd r.

(** The outcome of a collision test. *)
Definition outcome_of (r : Logged (Paddle * Outcome)) : Outcome := snd (fst r).
Definition paddle_of (r : Logged (Paddle * Outcome)) : Paddle := fst (fst r).
Definition divisors_of (r : Logged (Paddle * Outcome)) : list Q := snd r.

(** ** Frames of the ball *)

(** The position [Ball::update] first computes:
    [position + m_speed * sf::Force ( sin ( m_angle ), cos ( m_angle ) )]. *)
Definition candidate (P : Platform) (b : Ball) : Point :=
  padd (m_position b) (pscale (m_speed b) (Force P (m_angle b))).

(** The table is not turned inside out. *)
Definition table_ok (b : Ball) : Prop :=
  px (m_min b) <= px (m_max b) /\ py (m_min b) <= py (m_max b).

(** The angle and the serve position [new_ball] chooses for a ball. *)
Definition serve_angle (P : Platform) (b : Ball) (d : Draws) : Q :=
  m_angle (fst (new_ball P b d)).
Definition serve_position (P : Platform) (b : Ball) (d : Draws) : Point :=
  snd (new_ball P b d).

(** The angle a wall gives back. *)
Definition reflected (P : Platform) (angle : Q) (dw : Draws) : Q :=
  clampRadians P (pi P - angle + NorDisf 0 (125 # 10000) dw).

(** ** The collision test *)

(** The top of the detection zone for a paddle put at [pp]. *)
Definition detector (p : Paddle) (pp : Point) : Point :=
  padd pp (m_paddle_detector_offset p).

(** The horizontal extent of the last travel segment of the ball. *)
Definition delta_x (ball_ : Ball) (bp : Point) : Q :=
  px bp - px (m_previous_position ball_).

(** The spec's fraction of the travel segment that is still to be
    travelled when the ball meets the abscissa [ix]. *)
Definition remaining_fraction (ball_ : Ball) (bp : Point) (ix : Q) : Q :=
  (px bp - ix) / (px bp - px (m_previous_position ball_)).

(** The spec's new position after a hit: the intersection advanced along
    the new angle by speed times the remaining fraction. *)
Definition advanced_by_remaining (P : Platform) (b' : Ball) (ball_ : Ball)
    (bp i : Point) : Point :=
  padd i (pscale (m_speed b' * remaining_fraction ball_ bp (px i))
                 (Force P (m_angle b'))).

(** ** Frames of the paddles *)

(** The computer's paddle heads for smaller ordinates. *)
Definition moves_up (p : Paddle) (ball_ : Ball) : bool :=
  Qltb (reference_y p ball_ (m_position ball_)) (py (m_shape_position p)).

(** The ordinate [Paddle::update_computer] considers moving to. *)
Definition computer_candidate (P : Platform) (p : Paddle) (ball_ : Ball)
    (dp : Draws) : Q :=
  if moves_up p ball_
  then makeOdd P (py (m_shape_position p) - 9
                  + 9 * UniDisf (- (7 # 15)) (7 # 15) dp) false
  else makeOdd P (py (m_shape_position p) + 9
                  + 9 * UniDisf (- (7 # 15)) (7 # 15) dp) true.

(** The spec's acceptance test: inside the travel bounds and not past the
    reference ordinate. *)
Definition spec_accepts (P : Platform) (p : Paddle) (ball_ : Ball) (dp : Draws)
  : bool :=
  let c := computer_candidate P p ball_ dp in
  let ref := reference_y p ball_ (m_position ball_) in
  (Qleb (m_min_y p) c && Qleb c (m_max_y p))
  && (if moves_up p ball_ then Qleb ref c else Qleb c ref).

(** The formula of [sector_hit] as a function of the ordinate it reads. *)
Definition sector_at (p : Paddle) (y : Q) : Q :=
  clamp ((y - shape_top p) / m_paddle_length p) 0 (999 # 1000)
    * inject_Z (m_paddle_sectors p)
  - inject_Z (half_sectors p).

(** The spec's sector: the same, with the count halved exactly, so that the
    centre of the paddle is at zero. *)
Definition sector_spec (p : Paddle) (y : Q) : Q :=
  clamp ((y - shape_top p) / m_paddle_length p) 0 (999 # 1000)
    * inject_Z (m_paddle_sectors p)
  - inject_Z (m_paddle_sectors p) / 2.

(** ** A concrete table

    The table of [App::App]: a 1200 x 900 window, a rim of 100 and a shadow
    offset of -5, a ball of size 15 and paddles of size 11. *)
Module Demo.

(** The 32-bit float nearest to pi. *)
Definition pi32 : Q := 13176795 # 4194304.

Definition sin_poly (x : Q) : Q :=
  x - x * x * x / 6 + x * x * x * x * x / 120.
Definition cos_poly (x : Q) : Q :=
  1 - x * x / 2 + x * x * x * x / 24.

Definition wrap (a : Q) : Q :=
  a - (2 * pi32) * inject_Z (Qfloor (a / (2 * pi32))).

Definition odd_near (q : Q) (up : bool) : Q :=
  let n := Qfloor q in
  inject_Z (if Z.odd n then n else if up then n + 1 else n - 1)%Z.

Definition platform (rate : Z) : Platform :=
  {| pi := pi32; fsin := sin_poly; fcos := cos_poly;
     half_pi := pi32 / 2; clampRadians := wrap; makeOdd := odd_near;
     refresh_rate := rate |}.

Definition hz60 : Platform := platform 60.
Definition hz120 : Platform := platform 120.

Definition draws (c : bool) (u g : Q) : Draws :=
  {| coin := c; unif := u; gauss := g |}.

Definition quiet : Draws := draws false (1 # 2) 0.

(** A ball on the table, with the bounds [Ball::create] computes. *)
Definition ball (P : Platform) (pos prev : Point) (angle speed : Q) : Ball :=
  {| m_position := pos; m_angle := angle;
     m_speed_increment := 60 / inject_Z (refresh_rate P);
     m_speed := speed;
     m_min := mkPoint (205 # 2) (205 # 2);
     m_max := mkPoint (2175 # 2) (1575 # 2);
     m_direction := direction_of_angle P angle;
     m_previous_position := prev; m_pause := 0 |}.

(** The computer's paddle, on the left, its centre at [y]. *)
Definition left_paddle (y : Q) : Paddle :=
  {| m_mouse_min := 300; m_mouse_max := 600;
     m_paddle_length := 67; m_paddle_detector_length := 82;
     m_paddle_detector_offset := mkPoint 13 (- 41);
     m_paddle_sectors := 15;
     m_shape_position := mkPoint 155 y;
     m_min_y := 295 # 2; m_max_y := 1485 # 2; m_ratio_y := 595 # 300;
     m_side := Left; m_paddle_pause := 0 |}.

Definition zero_score : Score := {| m_left := 0; m_right := 0 |}.

Definition leaving_right : Ball :=
  ball hz120 (mkPoint 1085 400) (mkPoint 1080 400) (pi32 / 2) 5.

(** A ball about to cross the bottom wall. *)
Definition at_bottom_wall : Ball :=
  ball hz60 (mkPoint 600 785) (mkPoint 595 780) (pi32 / 4) 10.

(** A ball that leaves through the bottom right corner. *)
Definition leaving_corner : Ball :=
  ball hz60 (mkPoint 1085 785) (mkPoint 1080 780) (pi32 / 4) 10.

(** A ball that crossed the detector of the left paddle on a slope. *)
Definition sloped : Ball :=
  ball hz60 (mkPoint 160 450) (mkPoint 180 430) ((3 # 2) * pi32) 10.

(** A ball that moves along the detector of the left paddle. *)
Definition colinear : Ball :=
  ball hz60 (mkPoint 168 440) (mkPoint 168 450) pi32 10.

(** Balls that move away from the left paddle. *)
Definition departing_high : Ball :=
  ball hz60 (mkPoint 600 100) (mkPoint 590 105) (pi32 / 2) 10.
Definition departing_low : Ball :=
  ball hz60 (mkPoint 600 700) (mkPoint 590 705) (pi32 / 2) 10.

End Demo.

(** * The rest of the table: construction, the frame of [App], the score
      display *)

From Stdlib Require Ascii.

(** ** Table box and construction *)

(** [sf::FloatBox]: the four sides of the table. *)
Record FloatBox : Type := mkBox {
  box_left : Q; box_top : Q; box_right : Q; box_bottom : Q
}.

(** [Ball::create]; [shape_size] is [m_shape.getSize ( ).x], [d1] and [d2]
    feed the two uniform draws of the position. *)
Definition Ball_create (b : Ball) (m_table_box_ : FloatBox) (shape_size : Q)
    (d1 d2 : Draws) : Ball :=
  let half_ball_size := (1 # 2) * shape_size in
  let min := mkPoint (box_left m_table_box_ + half_ball_size)
                     (box_top m_table_box_ + half_ball_size) in
  let max := mkPoint (box_right m_table_box_ - half_ball_size)
                     (box_bottom m_table_box_ - half_ball_size) in
  {| m_position := mkPoint (UniDisf (px min) (px max) d1)
                           (UniDisf (py min) (py max) d2);
     m_angle := m_angle b;
     m_speed_increment := m_speed_increment b; m_speed := m_speed b;
     m_min := min; m_max := max; m_direction := m_direction b;
     m_previous_position := m_previous_position b; m_pause := m_pause b |}.

(** [PADDLE_MOUSE_RATIO]. *)
Definition PADDLE_MOUSE_RATIO : Q := 4125 # 10000.

(** [Paddle::Paddle].  [odd1] is the one-argument [sf::makeOdd],
    [desktop_height] is [sf::VideoMode::getDesktopMode ( ).height]; the
    fields the constructor leaves to [create] are put at 0. *)
Definition Paddle_new (odd1 : Q -> Q) (desktop_height : Z)
    (ball_size_ paddle_size_ : Q) : Paddle :=
  let length := odd1 (6 * odd1 paddle_size_) in
  {| m_mouse_min := PADDLE_MOUSE_RATIO * inject_Z desktop_height;
     m_mouse_max := (1 - PADDLE_MOUSE_RATIO) * inject_Z desktop_height;
     m_paddle_length := length;
     m_paddle_detector_length := length + ball_size_;
     m_paddle_detector_offset :=
       mkPoint ((1 # 2) * (ball_size_ + paddle_size_))
               (- (1 # 2) * (length + ball_size_));
     m_paddle_sectors := 15;
     m_shape_position := mkPoint 0 0;
     m_min_y := 0; m_max_y := 0; m_ratio_y := 0;
     m_side := Left; m_paddle_pause := 0 |}.

(** [Paddle::create]; [window_height] is [rwr_.getSize ( ).y]. *)
Definition Paddle_create (P : Platform) (p : Paddle) (m_table_box_ : FloatBox)
    (side_ : Side) (window_height : Z) : Paddle :=
  let rim_offset := 61 in
  let height := box_bottom m_table_box_ - box_top m_table_box_ in
  {| m_mouse_min := m_mouse_min p; m_mouse_max := m_mouse_max p;
     m_paddle_length := m_paddle_length p;
     m_paddle_detector_length := m_paddle_detector_length p;
     m_paddle_detector_offset :=
       mkPoint (if Side_eqb Right side_
                then px (m_paddle_detector_offset p) * - (1)
                else px (m_paddle_detector_offset p))
               (py (m_paddle_detector_offset p));
     m_paddle_sectors := m_paddle_sectors p;
     m_shape_position :=
       mkPoint (if Side_eqb Right side_
                then makeOdd P (box_right m_table_box_ - rim_offset) true
                else makeOdd P (box_left m_table_box_ + rim_offset) false)
               (inject_Z window_height / 2);
     m_min_y := box_top m_table_box_ + (75 # 1000) * height;
     m_max_y := box_bottom m_table_box_ - (75 # 1000) * height;
     m_ratio_y := ((85 # 100) * height) / (m_mouse_max p - m_mouse_min p);
     m_side := side_; m_paddle_pause := m_paddle_pause p |}.


(** ** Successive frames of the ball *)

(** [n] calls of [Ball::update], with the events they return. *)
Fixpoint Ball_frames (P : Platform) (n : nat) (b : Ball) (s : Score)
    (dm dw : Draws) : list Event * Ball * Score :=
  match n with
  | O => ([], b, s)
  | S k =>
      let r := Ball_update P b s dm dw in
      let '(evs, b', s') := Ball_frames P k (ball_of r) (score_of r) dm dw in
      (event_of r :: evs, b', s')
  end.

(** [n] calls of [Paddle::update_computer] on a ball that stays as it is,
    with the answers they return. *)
Fixpoint computer_frames (P : Platform) (n : nat) (p : Paddle) (ball_ : Ball)
    (dp db : Draws) : list bool * Paddle :=
  match n with
  | O => ([], p)
  | S k =>
      let r := update_computer P p ball_ dp db in
      let (hs, p') := computer_frames P k (paddle_of r) ball_ dp db in
      (hit (outcome_of r) :: hs, p')
  end.

(** ** The frame of the application *)

(** The objects on the table, of [struct App]. *)
Record App : Type := mkApp {
  m_ball : Ball;
  m_player_paddle : Paddle;
  m_computer_paddle : Paddle;
  m_score : Score
}.

(** What one frame reads from outside: the pointer and the random draws of
    the ball (miss, wall, return after the player, return after the
    computer) and of the computer's paddle. *)
Record FrameInput : Type := mkFrameInput {
  in_mouse_y : Q;
  in_miss : Draws;
  in_wall : Draws;
  in_player_return : Draws;
  in_computer : Draws;
  in_computer_return : Draws
}.

(** What one frame lets out: the event of the ball (wall and miss sounds) and
    the answers of the two paddles (paddle sound). *)
Record FrameSignals : Type := mkFrameSignals {
  sig_event : Event;
  sig_player_hit : bool;
  sig_computer_hit : bool
}.

(** The pause after a paddle hit, [333'333.3f]. *)
Definition hit_pause : Q := 3333333 # 10.

(** The pause of the ball after a miss, [500'000.0f]. *)
Definition miss_pause : Q := 500000.

(** [App::update_state].  The result is [None] when a paddle returns the ball
    to a position that is not a number; the frame is not followed further. *)
Definition update_state (P : Platform) (a : App) (i : FrameInput)
  : option (App * FrameSignals) :=
  let r := Ball_update P (m_ball a) (m_score a) (in_miss i) (in_wall i) in
  let event := event_of r in
  let ball := ball_of r in
  let score := score_of r in
  let '(ball, computer) :=
    match event with
    | Missed =>
        (Ball_pause ball miss_pause,
         if (MovesToLeft =? m_direction ball)%Z
         then Paddle_pause (m_computer_paddle a) (miss_pause + hit_pause / 2)
         else m_computer_paddle a)
    | _ => (ball, m_computer_paddle a)
    end in
  let rp := update_player P (m_player_paddle a) ball (in_mouse_y i)
              (in_player_return i) in
  match outcome_of rp with
  | HitNonFinite => None
  | op =>
      let player := paddle_of rp in
      let '(ball, computer) :=
        match op with
        | Hit b' => (b', Paddle_pause computer hit_pause)
        | _ => (ball, computer)
        end in
      let rc := update_computer P computer ball (in_computer i)
                  (in_computer_return i) in
      match outcome_of rc with
      | HitNonFinite => None
      | oc =>
          let computer := paddle_of rc in
          let '(ball, player) :=
            match oc with
            | Hit b' => (b', Paddle_pause player hit_pause)
            | _ => (ball, player)
            end in
          Some ({| m_ball := ball; m_player_paddle := player;
                   m_computer_paddle := computer; m_score := score |},
                {| sig_event := event;
                   sig_player_hit := hit op;
                   sig_computer_hit := hit oc |})
      end
  end.

(** ** Score display *)

(** The character [Score::update_text] shows: [( char ) ( score_ + 48 )]. *)
Definition update_text (score_ : Z) : Ascii.ascii :=
  Ascii.ascii_of_N (Z.to_N ((score_ + 48) mod 256)).

(** [struct Sizes]. *)
Record Sizes : Type := mkSizes { width : Z; height : Z }.

(** The sizes [Numbers::Numbers] keeps: those of the texture, the width
    divided by 10. *)
Definition Numbers_sizes (texture : Sizes) : Sizes :=
  {| width := Z.quot (width texture) 10; height := height texture |}.

(** [sf::IntRect]. *)
Record IntRect : Type := mkRect {
  rect_left : Z; rect_top : Z; rect_width : Z; rect_height : Z
}.

(** [Numbers::getRect]. *)
Definition getRect (m_sizes : Sizes) (number_ : Z) : IntRect :=
  {| rect_left := number_ * width m_sizes; rect_top := 0;
     rect_width := width m_sizes; rect_height := height m_sizes |}%Z.

(** ** What the further properties are stated with *)

(** The point is inside the bounds of the ball. *)
Definition on_table (b : Ball) (p : Point) : Prop :=
  (px (m_min b) <= px p /\ px p <= px (m_max b))
  /\ (py (m_min b) <= py p /\ py p <= py (m_max b)).

(** The events, the ball and the score after successive frames. *)
Definition events_of (r : list Event * Ball * Score) : list Event := fst (fst r).
Definition last_ball (r : list Event * Ball * Score) : Ball := snd (fst r).
Definition last_score (r : list Event * Ball * Score) : Score := snd r.


(** The ball moves away from the side of the paddle. *)
Definition moves_away (p : Paddle) (ball_ : Ball) : Prop :=
  match m_side p with
  | Left => m_direction ball_ = MovesToRight
  | Right => m_direction ball_ = MovesToLeft
  end.

(** ** The table of [App::App] *)
Module Table.

(** [m_table_box]: rim 100, shadow offset -5, window 1200 x 900. *)
Definition box : FloatBox :=
  {| box_left := 95; box_top := 95; box_right := 1095; box_bottom := 795 |}.

(** An odd whole number at or next to the argument. *)
Definition odd1 (q : Q) : Q := Demo.odd_near q true.

Definition computer : Paddle :=
  Paddle_create Demo.hz60 (Paddle_new odd1 1080 15 11) box Left 900.

Definition player : Paddle :=
  Paddle_create Demo.hz60 (Paddle_new odd1 1080 15 11) box Right 900.

Definition ball : Ball :=
  Ball_create (Ball_new Demo.hz60 Demo.quiet) box 15 Demo.quiet Demo.quiet.

Definition app : App :=
  {| m_ball := ball; m_player_paddle := player;
     m_computer_paddle := computer; m_score := Demo.zero_score |}.

(** The ball of the table, paused as after a miss. *)
Definition paused_ball : Ball := Ball_pause ball miss_pause.

(** The computer's paddle, paused as after a hit of the player. *)
Definition paused_computer : Paddle := Paddle_pause computer hit_pause.

(** A ball about to cross the detector of the player's paddle. *)
Definition near_player : Ball :=
  Demo.ball Demo.hz60 (mkPoint 1015 445) (mkPoint 1005 445) (Demo.pi32 / 2) 10.

(** A ball about to leave the table on the right. *)
Definition leaving : Ball :=
  Demo.ball Demo.hz60 (mkPoint 1085 400) (mkPoint 1075 400) (Demo.pi32 / 2) 10.


(** A ball that crossed the detector of the left paddle level with the
    centre of a paddle at 450. *)
Definition level : Ball :=
  Demo.ball Demo.hz60 (mkPoint 165 450) (mkPoint 175 450)
    ((3 # 2) * Demo.pi32) 10.

Definition app_with (b : Ball) : App :=
  {| m_ball := b; m_player_paddle := player;
     m_computer_paddle := computer; m_score := Demo.zero_score |}.

Definition input (mouse : Q) : FrameInput :=
  {| in_mouse_y := mouse; in_miss := Demo.quiet; in_wall := Demo.quiet;
     in_player_return := Demo.quiet; in_computer := Demo.quiet;
     in_computer_return := Demo.quiet |}.

End Table.

(** * Properties *)

(** ** Comparisons *)

Lemma Qleb_spec (a b : Q) : Qleb a b = true <-> a <= b.
Proof. unfold Qleb. apply Qle_bool_iff. Qed.

Lemma Qltb_spec (a b : Q) : Qltb a b = true <-> a < b.
Proof.
  unfold Qltb. rewrite negb_true_iff. split; intro H.
  - apply Qnot_le_lt. intro Hle. apply Qle_bool_iff in Hle. congruence.
  - destruct (Qle_bool b a) eqn:E; [| reflexivity].
    apply Qle_bool_iff in E. exfalso. apply (Qlt_not_le _ _ H E).
Qed.

Lemma Qltb_false (a b : Q) : Qltb a b = false <-> b <= a.
Proof.
  unfold Qltb. rewrite negb_false_iff. apply Qle_bool_iff.
Qed.

Lemma Qleb_false (a b : Q) : Qleb a b = false <-> b < a.
Proof.
  unfold Qleb. split; intro H.
  - apply Qnot_le_lt. intro Hle. apply Qle_bool_iff in Hle. congruence.
  - destruct (Qle_bool a b) eqn:E; [| reflexivity].
    apply Qle_bool_iff in E. exfalso. apply (Qlt_not_le _ _ H E).
Qed.

(** ** Arithmetic of the numeric layer *)

Lemma clamp_bounds (v lo hi : Q) : lo <= hi -> lo <= clamp v lo hi <= hi.
Proof.
  intro H. unfold clamp.
  destruct (Qltb v lo) eqn:E1.
  - split; [apply Qle_refl | exact H].
  - apply Qltb_false in E1.
    destruct (Qltb hi v) eqn:E2.
    + split; [exact H | apply Qle_refl].
    + apply Qltb_false in E2. split; assumption.
Qed.

Lemma UniDisf_bounds (a b : Q) (d : Draws) :
  a <= b -> 0 <= unif d < 1 -> a <= UniDisf a b d <= b.
Proof.
  intros Hab [H0 H1]. unfold UniDisf.
  assert (Hm : 0 <= (b - a) * unif d) by (apply Qmult_le_0_compat; lra).
  assert (Hn : 0 <= (b - a) * (1 - unif d)) by (apply Qmult_le_0_compat; lra).
  split; lra.
Qed.

Lemma UniDisf_lt (a b : Q) (d : Draws) :
  a < b -> 0 <= unif d < 1 -> UniDisf a b d < b.
Proof.
  intros Hab [H0 H1]. unfold UniDisf.
  assert (Hn : 0 < (b - a) * (1 - unif d)) by (apply Qmult_lt_0_compat; lra).
  lra.
Qed.

Lemma to_int32_unit (q : Q) : 0 <= q -> q < 1 -> to_int32 q = 0%Z.
Proof.
  destruct q as [n d]. unfold Qle, Qlt, to_int32. simpl. intros H0 H1.
  apply Z.quot_small. lia.
Qed.

Lemma to_int32_one (q : Q) : 1 <= q -> q < 2 -> to_int32 q = 1%Z.
Proof.
  destruct q as [n d]. unfold Qle, Qlt, to_int32. simpl. intros H0 H1.
  rewrite Z.quot_div_nonneg by lia.
  symmetry. apply (Z.div_unique n (Zpos d) 1 (n - Zpos d)); lia.
Qed.

Lemma to_int32_ge_two (q : Q) : 2 <= q -> (2 <= to_int32 q)%Z.
Proof.
  destruct q as [n d]. unfold Qle, to_int32. simpl. intros H.
  rewrite Z.quot_div_nonneg by lia.
  apply Z.div_le_lower_bound; lia.
Qed.

Lemma fabs_nonneg (a : Q) : 0 <= fabs a.
Proof.
  unfold fabs. destruct (Qltb a 0) eqn:E.
  - apply Qltb_spec in E. lra.
  - apply Qltb_false in E. exact E.
Qed.

Lemma fabs_eq_zero (a : Q) : a == 0 -> fabs a == 0.
Proof.
  intro H. unfold fabs. destruct (Qltb a 0); lra.
Qed.

(** ** Direction and angle: proofs *)

Section DirectionAngle.

Variable P : Platform.
Hypothesis pi_pos : 0 < pi P.

Lemma direction_right (a : Q) :
  0 <= a -> a < pi P -> direction_of_angle P a = MovesToRight.
Proof.
  intros H0 H1. unfold direction_of_angle. apply to_int32_unit.
  - apply Qle_shift_div_l; [exact pi_pos | lra].
  - apply Qlt_shift_div_r; [exact pi_pos | lra].
Qed.

Lemma direction_left (a : Q) :
  pi P <= a -> a < 2 * pi P -> direction_of_angle P a = MovesToLeft.
Proof.
  intros H0 H1. unfold direction_of_angle. apply to_int32_one.
  - apply Qle_shift_div_l; [exact pi_pos | lra].
  - apply Qlt_shift_div_r; [exact pi_pos | lra].
Qed.








End DirectionAngle.

Section BallFrame.

Variable P : Platform.
Hypothesis pi_pos : 0 < pi P.
Hypothesis clampRadians_range :
  forall a, 0 <= clampRadians P a /\ clampRadians P a < 2 * pi P.


Lemma update_Hit_inv (p : Paddle) (ball_ : Ball) (bp pp : Point) (db : Draws)
    (b' : Ball) :
  outcome_of (update P p ball_ bp pp db) = Hit b' ->
  exists i r, b' = return_ball P (set_shape_position p pp) ball_ i r db.
Proof.
  unfold update, outcome_of.
  destruct (rejected _ _ _ _); [discriminate |].
  destruct (not_equal _ _).
  - unfold fdiv, bind, ret.
    destruct (Qeq_bool (px (psub bp (m_previous_position ball_))) 0);
      [discriminate |].
    destruct (Qleb _ _ && Qleb _ _); [| discriminate].
    destruct (Qeq_bool _ 0); [discriminate |].
    cbn. intro H. injection H as <-. eauto.
  - unfold fdiv, bind, ret.
    destruct (Qeq_bool _ 0); [discriminate |].
    cbn. intro H. injection H as <-. eauto.
Qed.




End BallFrame.

(** ** Frames of the ball: proofs *)

Section BallEvents.

Variable P : Platform.

Lemma serve_position_inside (b : Ball) (d : Draws) :
  py (m_min b) <= py (m_max b) -> out_y b (serve_position P b d) = false.
Proof.
  intro H. unfold out_y, serve_position, new_ball. cbn.
  apply orb_false_iff. split; apply Qltb_false;
    destruct (coin d); cbn; lra.
Qed.

Lemma out_x_one_side (b : Ball) (p : Point) :
  px (m_min b) <= px (m_max b) -> out_x b p = true ->
  (Qltb (px p) (px (m_min b)) = true /\ Qltb (px (m_max b)) (px p) = false)
  \/ (Qltb (px p) (px (m_min b)) = false /\ Qltb (px (m_max b)) (px p) = true).
Proof.
  intros Hw H. unfold out_x in H. apply orb_true_iff in H.
  destruct H as [H | H]; [left | right]; split; try exact H.
  - apply Qltb_spec in H. apply Qltb_false. lra.
  - apply Qltb_spec in H. apply Qltb_false. lra.
Qed.

(** C8.  On a table that is not inside out, a frame of the ball that returns
    [Missed] has added exactly 1 to exactly one counter (the right one when
    the candidate left the table on the left, the left one when it left on
    the right) and kept the other; a frame that returns [None] or [HitWall]
    has kept both. *)
Theorem missed_scores_once (b : Ball) (s : Score) (dm dw : Draws) :
  table_ok b ->
  let r := Ball_update P b s dm dw in
  (event_of r = Missed ->
     (Qltb (px (candidate P b)) (px (m_min b)) = true
      /\ m_right (score_of r) = (m_right s + 1)%Z
      /\ m_left (score_of r) = m_left s)
     \/ (Qltb (px (m_max b)) (px (candidate P b)) = true
         /\ m_left (score_of r) = (m_left s + 1)%Z
         /\ m_right (score_of r) = m_right s))
  /\ (event_of r = EvNone \/ event_of r = HitWall -> score_of r = s).
Proof.
  intros [Hx Hy]. cbv zeta.
  unfold Ball_update, event_of, score_of.
  destruct (Qltb 0 (m_pause b)).
  { cbn. split; [discriminate | reflexivity]. }
  fold (candidate P b).
  set (b0 := {| m_position := m_position b; m_angle := m_angle b;
                m_speed_increment := m_speed_increment b; m_speed := m_speed b;
                m_min := m_min b; m_max := m_max b; m_direction := m_direction b;
                m_previous_position := m_position b; m_pause := 0 |}).
  change (padd (m_position b) (pscale (m_speed b0) (Force P (m_angle b0))))
    with (candidate P b).
  destruct (out_x b0 (candidate P b)) eqn:Ex.
  - pose proof (serve_position_inside b0 dm Hy) as Hin.
    unfold serve_position in Hin.
    destruct (new_ball P b0 dm) as [bn pn] eqn:En.
    assert (Hb : out_y bn pn = false).
    { unfold new_ball in En. injection En as <- <-. exact Hin. }
    rewrite Hb. cbn.
    split; [intros _ | intros [H | H]; discriminate].
    destruct (out_x_one_side b0 (candidate P b) Hx Ex) as [[H1 H2] | [H1 H2]];
      cbn in H1, H2; rewrite H1, H2; cbn; [left | right];
      repeat split; lia.
  - destruct (out_y b0 (candidate P b)); cbn;
      (split; [discriminate | reflexivity]).
Qed.

End BallEvents.

Section BallWall.

Variable P : Platform.

(** C9.  A frame of the ball whose candidate stays between the left and
    right bounds (no miss) and that returns [HitWall] keeps the speed, and
    with it the speed increment, the bounds and the score; the angle becomes
    the reflected one, the direction the one derived from it, the position
    the candidate with its ordinate put on the wall that was crossed; the
    previous position is the one the frame started from and the pause
    countdown is at its cleared value 0. *)
Theorem wall_reflection_keeps_speed (b : Ball) (s : Score) (dm dw : Draws) :
  out_x b (candidate P b) = false ->
  event_of (Ball_update P b s dm dw) = HitWall ->
  let b' := ball_of (Ball_update P b s dm dw) in
  m_speed b' = m_speed b
  /\ m_speed_increment b' = m_speed_increment b
  /\ m_min b' = m_min b /\ m_max b' = m_max b
  /\ score_of (Ball_update P b s dm dw) = s
  /\ m_angle b' = reflected P (m_angle b) dw
  /\ m_direction b' = direction_of_angle P (m_angle b')
  /\ px (m_position b') = px (candidate P b)
  /\ py (m_position b') =
       (if Qltb (py (candidate P b)) (py (m_min b))
        then py (m_min b) else py (m_max b))
  /\ m_previous_position b' = m_position b
  /\ m_pause b' = 0.
Proof.
  intros Hx. unfold Ball_update, event_of, ball_of, score_of.
  destruct (Qltb 0 (m_pause b)); [discriminate |].
  set (b0 := {| m_position := m_position b; m_angle := m_angle b;
                m_speed_increment := m_speed_increment b; m_speed := m_speed b;
                m_min := m_min b; m_max := m_max b; m_direction := m_direction b;
                m_previous_position := m_position b; m_pause := 0 |}).
  change (padd (m_position b) (pscale (m_speed b0) (Force P (m_angle b0))))
    with (candidate P b).
  change (out_x b0 (candidate P b)) with (out_x b (candidate P b)).
  rewrite Hx.
  destruct (out_y b0 (candidate P b)); cbn; [| discriminate].
  intros _. repeat split; reflexivity.
Qed.

(** C7.  In a frame of the ball that is not paused and whose candidate is
    left of the left bound or right of the right bound, the vertical test is
    made on the position [new_ball] has just chosen, whatever the ordinate of
    the candidate was.  If that serve position is inside the vertical
    bounds the frame returns [Missed] with the serve position and the serve
    angle; if it is outside, the frame returns [HitWall], the ordinate of the
    serve position is put on the wall it crossed and the serve angle is the
    one reflected; on a table whose vertical bounds are not inside out the
    serve position is always inside. *)
Theorem miss_precedes_wall (b : Ball) (s : Score) (dm dw : Draws) :
  Qltb 0 (m_pause b) = false ->
  out_x b (candidate P b) = true ->
  let r := Ball_update P b s dm dw in
  let pn := serve_position P b dm in
  (out_y b pn = false ->
     event_of r = Missed
     /\ m_position (ball_of r) = pn
     /\ m_angle (ball_of r) = serve_angle P b dm)
  /\ (out_y b pn = true ->
        event_of r = HitWall
        /\ px (m_position (ball_of r)) = px pn
        /\ py (m_position (ball_of r)) =
             (if Qltb (py pn) (py (m_min b)) then py (m_min b) else py (m_max b))
        /\ m_angle (ball_of r) = reflected P (serve_angle P b dm) dw
        /\ m_speed (ball_of r) = 10)
  /\ (py (m_min b) <= py (m_max b) -> out_y b pn = false).
Proof.
  intros Hp Hx. cbv zeta.
  unfold Ball_update, event_of, ball_of, serve_position, serve_angle.
  rewrite Hp.
  set (b0 := {| m_position := m_position b; m_angle := m_angle b;
                m_speed_increment := m_speed_increment b; m_speed := m_speed b;
                m_min := m_min b; m_max := m_max b; m_direction := m_direction b;
                m_previous_position := m_position b; m_pause := 0 |}).
  change (padd (m_position b) (pscale (m_speed b0) (Force P (m_angle b0))))
    with (candidate P b).
  change (out_x b0 (candidate P b)) with (out_x b (candidate P b)).
  rewrite Hx.
  change (new_ball P b0 dm) with
    ({| m_position := m_position b0;
        m_angle := m_angle (fst (new_ball P b dm));
        m_speed_increment := m_speed_increment b0;
        m_speed := 10;
        m_min := m_min b0; m_max := m_max b0;
        m_direction := m_direction b0;
        m_previous_position := m_previous_position b0;
        m_pause := m_pause b0 |}, snd (new_ball P b dm)).
  cbv iota beta.
  set (pn := snd (new_ball P b dm)).
  subst b0. unfold out_y. cbn [m_min m_max].
  split; [| split].
  - intro Hy. rewrite Hy. cbn. repeat split; reflexivity.
  - intro Hy. rewrite Hy. cbn. repeat split; reflexivity.
  - intro Hw. apply (serve_position_inside P b dm Hw : out_y b pn = false).
Qed.

End BallWall.

(** ** The collision test: proofs *)

Lemma fabs_compat (a b : Q) : a == b -> fabs a == fabs b.
Proof.
  intro H. unfold fabs.
  destruct (Qltb a 0) eqn:Ea; destruct (Qltb b 0) eqn:Eb;
    try apply Qltb_spec in Ea; try apply Qltb_spec in Eb;
    try apply Qltb_false in Ea; try apply Qltb_false in Eb; lra.
Qed.

Lemma not_equal_zero_false (x : Q) :
  not_equal 0 x = false <-> fabs x < 4 * FLT_EPSILON.
Proof.
  unfold not_equal. rewrite Qleb_false.
  assert (H : fabs (x - 0) == fabs x) by (apply fabs_compat; lra).
  rewrite H. reflexivity.
Qed.

Lemma not_equal_zero_true (x : Q) :
  not_equal 0 x = true -> Qeq_bool x 0 = false.
Proof.
  unfold not_equal. rewrite Qleb_spec. intro H.
  destruct (Qeq_bool x 0) eqn:E; [| reflexivity].
  apply Qeq_bool_iff in E.
  assert (H0 : fabs (x - 0) == 0) by (apply fabs_eq_zero; lra).
  unfold FLT_EPSILON in H. lra.
Qed.

Section Collision.

Variable P : Platform.

Lemma update_colinear (p : Paddle) (ball_ : Ball) (bp pp : Point) (db : Draws) :
  rejected (set_shape_position p pp) ball_ bp (detector p pp) = false ->
  not_equal 0 (delta_x ball_ bp) = false ->
  hit (outcome_of (update P p ball_ bp pp db)) = true
  /\ divisors_of (update P p ball_ bp pp db) = [delta_x ball_ bp].
Proof.
  intros Hr Hn. unfold update, outcome_of, divisors_of. cbv zeta.
  change (padd pp (m_paddle_detector_offset (set_shape_position p pp)))
    with (detector p pp).
  rewrite Hr.
  change (px (psub bp (m_previous_position ball_))) with (delta_x ball_ bp).
  rewrite Hn.
  unfold fdiv, bind, ret.
  change (px bp - px (m_previous_position ball_)) with (delta_x ball_ bp).
  destruct (Qeq_bool (delta_x ball_ bp) 0); cbn; split; reflexivity.
Qed.

Lemma update_sloped (p : Paddle) (ball_ : Ball) (bp pp : Point) (db : Draws) :
  rejected (set_shape_position p pp) ball_ bp (detector p pp) = false ->
  not_equal 0 (delta_x ball_ bp) = true ->
  let y := (py bp - py (m_previous_position ball_)) / delta_x ball_ bp
           * (px (detector p pp) - px bp) + py bp in
  Qleb (py (detector p pp)) y
  && Qleb y (py (detector p pp) + m_paddle_detector_length p) = true ->
  update P p ball_ bp pp db =
  (set_shape_position p pp,
   Hit (return_ball P (set_shape_position p pp) ball_
          (mkPoint (px (detector p pp)) y)
          (delta_x ball_ bp / delta_x ball_ bp) db),
   [delta_x ball_ bp; delta_x ball_ bp]).
Proof.
  intros Hr Hn y Hy. unfold update. cbv zeta.
  change (padd pp (m_paddle_detector_offset (set_shape_position p pp)))
    with (detector p pp).
  rewrite Hr.
  change (px (psub bp (m_previous_position ball_))) with (delta_x ball_ bp).
  rewrite Hn.
  pose proof (not_equal_zero_true _ Hn) as Hz.
  unfold fdiv, bind, ret.
  change (px bp - px (m_previous_position ball_)) with (delta_x ball_ bp).
  rewrite Hz.
  change (py (psub bp (m_previous_position ball_)))
    with (py bp - py (m_previous_position ball_)).
  cbn [m_paddle_detector_length set_shape_position].
  fold y. rewrite Hy. reflexivity.
Qed.

(** In the sloped branch the ball is put a full step of its new speed
    beyond the intersection, wherever on the segment the intersection is. *)
Lemma sloped_hit_full_step (p : Paddle) (ball_ : Ball) (bp pp : Point)
    (db : Draws) (b' : Ball) :
  not_equal 0 (delta_x ball_ bp) = true ->
  outcome_of (update P p ball_ bp pp db) = Hit b' ->
  exists y,
    Peq (m_position b')
        (padd (mkPoint (px (detector p pp)) y)
              (pscale (m_speed b') (Force P (m_angle b')))).
Proof.
  intros Hn. pose proof (not_equal_zero_true _ Hn) as Hz.
  unfold update, outcome_of. cbv zeta.
  change (padd pp (m_paddle_detector_offset (set_shape_position p pp)))
    with (detector p pp).
  destruct (rejected _ _ _ _); [discriminate |].
  change (px (psub bp (m_previous_position ball_))) with (delta_x ball_ bp).
  rewrite Hn. unfold fdiv, bind, ret.
  change (px bp - px (m_previous_position ball_)) with (delta_x ball_ bp).
  rewrite Hz.
  match goal with
  | |- context [Qleb (py (detector p pp)) ?y0] => set (y := y0)
  end.
  destruct (Qleb _ _ && Qleb _ _); [| discriminate].
  cbn [fst snd]. intro H. injection H as <-.
  exists y.
  assert (Hd : ~ delta_x ball_ bp == 0).
  { intro E. apply Qeq_bool_iff in E. congruence. }
  unfold Peq, return_ball, detector, padd, pscale.
  cbn [px py m_position m_speed m_angle].
  split; field; exact Hd.
Qed.

(** In the colinear branch, when the quotient exists, the ball is put at the
    chosen end of the zone advanced by its new speed times the fraction of
    the segment that is still to travel. *)
Lemma colinear_hit_remaining (p : Paddle) (ball_ : Ball) (bp pp : Point)
    (db : Draws) (b' : Ball) :
  not_equal 0 (delta_x ball_ bp) = false ->
  outcome_of (update P p ball_ bp pp db) = Hit b' ->
  exists i,
    px i = px (detector p pp)
    /\ Peq (m_position b') (advanced_by_remaining P b' ball_ bp i).
Proof.
  intros Hn. unfold update, outcome_of. cbv zeta.
  change (padd pp (m_paddle_detector_offset (set_shape_position p pp)))
    with (detector p pp).
  destruct (rejected _ _ _ _); [discriminate |].
  change (px (psub bp (m_previous_position ball_))) with (delta_x ball_ bp).
  rewrite Hn. unfold fdiv, bind, ret.
  change (px bp - px (m_previous_position ball_)) with (delta_x ball_ bp).
  destruct (Qeq_bool (delta_x ball_ bp) 0) eqn:Hz; [discriminate |].
  assert (Hd : ~ delta_x ball_ bp == 0).
  { intro E. apply Qeq_bool_iff in E. congruence. }
  match goal with
  | |- context [return_ball P _ ball_ ?i0 _ db] => set (i := i0)
  end.
  cbn [fst snd]. intro H. injection H as <-.
  exists i. split.
  - unfold i. destruct (Qltb _ _); reflexivity.
  - clearbody i.
    unfold Peq, advanced_by_remaining, remaining_fraction, return_ball,
      padd, pscale, delta_x in *.
    cbn [px py m_position m_speed m_angle].
    split; field; exact Hd.
Qed.

(** The paddle is drawn where its controller put it. *)
Lemma update_sets_shape_position (p : Paddle) (ball_ : Ball) (bp pp : Point)
    (db : Draws) :
  paddle_of (update P p ball_ bp pp db) = set_shape_position p pp.
Proof.
  unfold update, paddle_of, fdiv, bind, ret. cbv zeta.
  repeat (match goal with
          | |- context [if ?c then _ else _] => destruct c
          end; cbn [fst snd]);
    reflexivity.
Qed.

Lemma update_computer_moves_to (p : Paddle) (ball_ : Ball) (dp db : Draws) :
  Qltb 0 (m_paddle_pause p) = false ->
  m_shape_position (paddle_of (update_computer P p ball_ dp db))
  = computer_position P p ball_ dp.
Proof.
  intro Hp. unfold update_computer. rewrite Hp.
  rewrite update_sets_shape_position. reflexivity.
Qed.

End Collision.

(** ** Frames of the paddles: proofs *)

Section Paddles.

Variable P : Platform.

(** C5 as amended.  When the ball is outside the catch window, the computer
    accepts its candidate exactly when the candidate is strictly inside the
    travel bound it heads for (above [m_min_y] going up, below [m_max_y]
    going down) and strictly short of the ordinate of the ball, whether the
    reference was the ball or the middle of the table; otherwise the paddle
    keeps its position. *)
Theorem computer_accepts_short_of_ball (p : Paddle) (ball_ : Ball) (dp : Draws) :
  is_y_in_paddle p (py (m_shape_position p)) (py (m_position ball_)) = false ->
  let c := computer_candidate P p ball_ dp in
  let moved := mkPoint (px (m_shape_position p)) c in
  let kept := m_shape_position p in
  (moves_up p ball_ = true ->
     (m_min_y p < c /\ py (m_position ball_) < c ->
        computer_position P p ball_ dp = moved)
     /\ (~ (m_min_y p < c /\ py (m_position ball_) < c) ->
           computer_position P p ball_ dp = kept))
  /\ (moves_up p ball_ = false ->
        (c < m_max_y p /\ c < py (m_position ball_) ->
           computer_position P p ball_ dp = moved)
        /\ (~ (c < m_max_y p /\ c < py (m_position ball_)) ->
              computer_position P p ball_ dp = kept)).
Proof.
  intro Hw. cbv zeta.
  unfold computer_position, computer_candidate. rewrite Hw. cbn [negb].
  fold (moves_up p ball_).
  split; intro Hm; rewrite Hm; split.
  - intros [H1 H2]. apply Qltb_spec in H1, H2. rewrite H1, H2. reflexivity.
  - intro Hn.
    match goal with
    | |- (if Qltb ?a ?c then _ else _) = _ => destruct (Qltb a c) eqn:E1
    end; [| reflexivity].
    match goal with
    | |- (if Qltb ?a ?c then _ else _) = _ => destruct (Qltb a c) eqn:E2
    end; [| reflexivity].
    exfalso. apply Hn. split; apply Qltb_spec; assumption.
  - intros [H1 H2]. apply Qltb_spec in H1, H2. rewrite H1, H2. reflexivity.
  - intro Hn.
    match goal with
    | |- (if Qltb ?a ?c then _ else _) = _ => destruct (Qltb a c) eqn:E1
    end; [| reflexivity].
    match goal with
    | |- (if Qltb ?a ?c then _ else _) = _ => destruct (Qltb a c) eqn:E2
    end; [| reflexivity].
    exfalso. apply Hn. split; apply Qltb_spec; assumption.
Qed.

Lemma sector_hit_reads_ball (p : Paddle) (ball_ : Ball) :
  sector_hit p ball_ = sector_at p (py (m_position ball_)).
Proof. reflexivity. Qed.

(** With the 15 sectors of the game, a ball level with the centre of the
    paddle gets the sector 1/2. *)
Lemma centre_sector_is_half (p : Paddle) (ball_ : Ball) :
  m_paddle_sectors p = 15%Z ->
  0 < m_paddle_length p ->
  py (m_position ball_) == py (m_shape_position p) ->
  sector_hit p ball_ == 1 # 2.
Proof.
  intros Hs Hl Hy. unfold sector_hit, half_sectors, shape_top.
  rewrite Hs.
  change (inject_Z ((15 mod 2 ^ 32) / 2)) with 7.
  change (inject_Z 15) with 15.
  set (v := (py (m_position ball_)
             - (py (m_shape_position p) - m_paddle_length p / 2))
            / m_paddle_length p).
  assert (Hv : v == 1 # 2).
  { assert (E : v == (py (m_position ball_) - py (m_shape_position p))
                     / m_paddle_length p + (1 # 2))
      by (unfold v; field; lra).
    rewrite E, Hy.
    assert (Z0 : py (m_shape_position p) - py (m_shape_position p) == 0)
      by ring.
    rewrite Z0. field. lra. }
  assert (Hc : clamp v 0 (999 # 1000) = v).
  { unfold clamp.
    destruct (Qltb v 0) eqn:E1; [apply Qltb_spec in E1; lra |].
    destruct (Qltb (999 # 1000) v) eqn:E2; [apply Qltb_spec in E2; lra |].
    reflexivity. }
  rewrite Hc, Hv. reflexivity.
Qed.

End Paddles.

(** ** The engine on the concrete table *)

Ltac by_computation :=
  vm_compute; first [ reflexivity | discriminate | intro; discriminate ].

Ltac conj_by_computation :=
  lazymatch goal with
  | |- _ /\ _ => split; [by_computation | conj_by_computation]
  | |- _ => by_computation
  end.

Module DemoFacts.

Import Demo.

Lemma pi32_pos : 0 < pi hz60.
Proof. reflexivity. Qed.


(** A ball that leaves the table on the right at 120 Hz. *)
End DemoFacts.

Import Demo DemoFacts.



Lemma missed_scores_once_witness :
  table_ok leaving_right
  /\ event_of (Ball_update hz120 leaving_right zero_score quiet quiet) = Missed
  /\ ((Qltb (px (candidate hz120 leaving_right)) (px (m_min leaving_right)) = true
       /\ m_right (score_of (Ball_update hz120 leaving_right zero_score quiet quiet))
          = (m_right zero_score + 1)%Z
       /\ m_left (score_of (Ball_update hz120 leaving_right zero_score quiet quiet))
          = m_left zero_score)
      \/ (Qltb (px (m_max leaving_right)) (px (candidate hz120 leaving_right)) = true
          /\ m_left (score_of (Ball_update hz120 leaving_right zero_score quiet quiet))
             = (m_left zero_score + 1)%Z
          /\ m_right (score_of (Ball_update hz120 leaving_right zero_score quiet quiet))
             = m_right zero_score)).
Proof.
  assert (Ht : table_ok leaving_right) by (split; by_computation).
  assert (He : event_of (Ball_update hz120 leaving_right zero_score quiet quiet)
               = Missed) by by_computation.
  split; [exact Ht | split; [exact He |]].
  exact (proj1 (missed_scores_once hz120 leaving_right zero_score quiet quiet Ht) He).
Defined.

Lemma wall_reflection_keeps_speed_witness :
  out_x at_bottom_wall (candidate hz60 at_bottom_wall) = false
  /\ event_of (Ball_update hz60 at_bottom_wall zero_score quiet quiet) = HitWall
  /\ m_speed (ball_of (Ball_update hz60 at_bottom_wall zero_score quiet quiet))
     = m_speed at_bottom_wall.
Proof.
  assert (Hx : out_x at_bottom_wall (candidate hz60 at_bottom_wall) = false)
    by by_computation.
  assert (He : event_of (Ball_update hz60 at_bottom_wall zero_score quiet quiet)
               = HitWall) by by_computation.
  split; [exact Hx | split; [exact He |]].
  exact (proj1 (wall_reflection_keeps_speed hz60 at_bottom_wall zero_score
                  quiet quiet Hx He)).
Defined.

Lemma miss_precedes_wall_witness :
  Qltb 0 (m_pause leaving_corner) = false
  /\ out_x leaving_corner (candidate hz60 leaving_corner) = true
  /\ out_y leaving_corner (candidate hz60 leaving_corner) = true
  /\ out_y leaving_corner (serve_position hz60 leaving_corner quiet) = false
  /\ event_of (Ball_update hz60 leaving_corner zero_score quiet quiet) = Missed
  /\ m_position (ball_of (Ball_update hz60 leaving_corner zero_score quiet quiet))
     = serve_position hz60 leaving_corner quiet.
Proof.
  assert (Hp : Qltb 0 (m_pause leaving_corner) = false) by by_computation.
  assert (Hx : out_x leaving_corner (candidate hz60 leaving_corner) = true)
    by by_computation.
  assert (Hy : out_y leaving_corner (serve_position hz60 leaving_corner quiet)
               = false) by by_computation.
  split; [exact Hp | split; [exact Hx | split; [by_computation |]]].
  split; [exact Hy |].
  destruct (proj1 (miss_precedes_wall hz60 leaving_corner zero_score quiet quiet
                     Hp Hx) Hy) as [He [Hpos _]].
  split; [exact He | exact Hpos].
Defined.

(** C3.  At 120 Hz the ball is constructed with the speed 5, which is 10
    times its speed increment, and the frame in which it leaves the table on
    the right returns [Missed] and leaves it with the speed 10, which is 20
    times its speed increment: [new_ball] writes the literal 10, not
    [10 * m_speed_increment]. *)
Theorem serve_speed_is_literal_ten :
  (forall P b d, m_speed (fst (new_ball P b d)) = 10)
  /\ m_speed (Ball_new hz120 quiet) == 5
  /\ 10 * m_speed_increment (Ball_new hz120 quiet) == 5
  /\ event_of (Ball_update hz120 leaving_right zero_score quiet quiet) = Missed
  /\ m_speed (ball_of (Ball_update hz120 leaving_right zero_score quiet quiet)) = 10
  /\ 10 * m_speed_increment
            (ball_of (Ball_update hz120 leaving_right zero_score quiet quiet)) == 5.
Proof.
  split; [intros; reflexivity |].
  conj_by_computation.
Qed.

(** C2.  The ball [sloped] went from (180, 430) to (160, 450) and met the
    detector of the left paddle at (168, 442), with 2/5 of the segment still
    to travel.  [Paddle::update] returns it to the intersection advanced by
    its whole new speed, since the ratio it passes to [return_ball] is
    [(x - x_prev) / (x - x_prev)]; that is not the intersection advanced by
    the speed times 2/5.  Every hit of the sloped branch is returned a full
    step in this way. *)
Theorem sloped_return_advances_full_step :
  let r := update hz60 (left_paddle 450) sloped (m_position sloped)
             (mkPoint 155 450) quiet in
  exists b',
    outcome_of r = Hit b'
    /\ remaining_fraction sloped (m_position sloped) 168 == 2 # 5
    /\ Peq (m_position b')
           (padd (mkPoint 168 442)
                 (pscale (m_speed b' * 1) (Force hz60 (m_angle b'))))
    /\ ~ Peq (m_position b')
             (advanced_by_remaining hz60 b' sloped (m_position sloped)
                (mkPoint 168 442))
    /\ (forall P p ball_ bp pp db b1,
          not_equal 0 (delta_x ball_ bp) = true ->
          outcome_of (update P p ball_ bp pp db) = Hit b1 ->
          exists y,
            Peq (m_position b1)
                (padd (mkPoint (px (detector p pp)) y)
                      (pscale (m_speed b1) (Force P (m_angle b1))))).
Proof.
  cbv zeta. eexists. split; [vm_compute; reflexivity |].
  split; [by_computation |]. split; [| split].
  - split; by_computation.
  - intros [H _]. vm_compute in H. discriminate H.
  - intros P p ball_ bp pp db b1 Hn Hh.
    apply (sloped_hit_full_step P p ball_ bp pp db b1 Hn Hh).
Qed.

(** C4.  The ball [colinear] went from (168, 450) to (168, 440) along the
    detector of the left paddle.  The test [not_equal ( 0.0f, dx )] fails,
    the colinear branch is taken, and that branch divides by the horizontal
    extent of the segment, here 0: the hit is reported with a position that
    is not a number. *)
Theorem colinear_branch_divides_by_delta :
  let r := update hz60 (left_paddle 450) colinear (m_position colinear)
             (mkPoint 155 450) quiet in
  not_equal 0 (delta_x colinear (m_position colinear)) = false
  /\ divisors_of r = [0]
  /\ outcome_of r = HitNonFinite
  /\ (forall P p ball_ bp pp db,
        rejected (set_shape_position p pp) ball_ bp (detector p pp) = false ->
        not_equal 0 (delta_x ball_ bp) = false ->
        divisors_of (update P p ball_ bp pp db) = [delta_x ball_ bp]
        /\ fabs (delta_x ball_ bp) < 4 * FLT_EPSILON).
Proof.
  cbv zeta.
  split; [by_computation | split; [by_computation | split; [by_computation |]]].
  intros P p ball_ bp pp db Hr Hn. split.
  - apply (update_colinear P p ball_ bp pp db Hr Hn).
  - apply not_equal_zero_false. exact Hn.
Qed.

(** C10.  In the colinear branch of [Paddle::update], once the early
    rejection has passed, a hit is reported whatever the ordinates are; the
    ball [colinear], whose segment lies between 440 and 450, is hit by the
    detector of a paddle at 600 (zone 559 to 641, below the segment) and by
    that of a paddle at 300 (zone 259 to 341, above the segment). *)
Theorem colinear_branch_hits_unconditionally :
  (forall P p ball_ bp pp db,
      rejected (set_shape_position p pp) ball_ bp (detector p pp) = false ->
      not_equal 0 (delta_x ball_ bp) = false ->
      hit (outcome_of (update P p ball_ bp pp db)) = true)
  /\ (py (m_previous_position colinear)
        < py (detector (left_paddle 600) (mkPoint 155 600))
      /\ py (m_position colinear)
           < py (detector (left_paddle 600) (mkPoint 155 600))
      /\ hit (outcome_of (update hz60 (left_paddle 600) colinear
                            (m_position colinear) (mkPoint 155 600) quiet)) = true)
  /\ (py (detector (left_paddle 300) (mkPoint 155 300))
        + m_paddle_detector_length (left_paddle 300)
        < py (m_position colinear)
      /\ py (detector (left_paddle 300) (mkPoint 155 300))
           + m_paddle_detector_length (left_paddle 300)
           < py (m_previous_position colinear)
      /\ hit (outcome_of (update hz60 (left_paddle 300) colinear
                            (m_position colinear) (mkPoint 155 300) quiet)) = true).
Proof.
  split; [| split; conj_by_computation].
  intros P p ball_ bp pp db Hr Hn.
  apply (update_colinear P p ball_ bp pp db Hr Hn).
Qed.

Lemma colinear_branch_hits_unconditionally_witness :
  rejected (set_shape_position (left_paddle 600) (mkPoint 155 600)) colinear
    (m_position colinear) (detector (left_paddle 600) (mkPoint 155 600)) = false
  /\ not_equal 0 (delta_x colinear (m_position colinear)) = false
  /\ hit (outcome_of (update hz60 (left_paddle 600) colinear
                        (m_position colinear) (mkPoint 155 600) quiet)) = true.
Proof.
  assert (Hr : rejected (set_shape_position (left_paddle 600) (mkPoint 155 600))
                 colinear (m_position colinear)
                 (detector (left_paddle 600) (mkPoint 155 600)) = false)
    by by_computation.
  assert (Hn : not_equal 0 (delta_x colinear (m_position colinear)) = false)
    by by_computation.
  split; [exact Hr | split; [exact Hn |]].
  exact (proj1 colinear_branch_hits_unconditionally hz60 (left_paddle 600)
           colinear (m_position colinear) (mkPoint 155 600) quiet Hr Hn).
Defined.

(** Against C5 as stated.  The ball [departing_high] moves away from the
    left paddle, so the reference is the middle of the travel range, 445.
    From 451 the computer's candidate is 441: inside the bounds but past the
    reference, so the spec's test rejects it, and the paddle moves to it.
    With [departing_low] and the paddle at 500 the candidate is 491: inside
    the bounds and short of the reference, so the spec's test accepts it, and
    the paddle stays, because the ball (at 700) is not above the candidate. *)
Lemma computer_ignores_reference :
  (is_y_in_paddle (left_paddle 451) 451 (py (m_position departing_high)) = false
   /\ reference_y (left_paddle 451) departing_high (m_position departing_high)
      == 445
   /\ computer_candidate hz60 (left_paddle 451) departing_high quiet = 441
   /\ spec_accepts hz60 (left_paddle 451) departing_high quiet = false
   /\ computer_position hz60 (left_paddle 451) departing_high quiet
      = mkPoint 155 441)
  /\ (is_y_in_paddle (left_paddle 500) 500 (py (m_position departing_low)) = false
      /\ computer_candidate hz60 (left_paddle 500) departing_low quiet = 491
      /\ spec_accepts hz60 (left_paddle 500) departing_low quiet = true
      /\ computer_position hz60 (left_paddle 500) departing_low quiet
         = mkPoint 155 500).
Proof.
  split; conj_by_computation.
Qed.

Lemma computer_accepts_short_of_ball_witness :
  is_y_in_paddle (left_paddle 451) (py (m_shape_position (left_paddle 451)))
    (py (m_position departing_high)) = false
  /\ moves_up (left_paddle 451) departing_high = true
  /\ computer_position hz60 (left_paddle 451) departing_high quiet
     = mkPoint (px (m_shape_position (left_paddle 451)))
               (computer_candidate hz60 (left_paddle 451) departing_high quiet).
Proof.
  assert (Hw : is_y_in_paddle (left_paddle 451)
                 (py (m_shape_position (left_paddle 451)))
                 (py (m_position departing_high)) = false) by by_computation.
  assert (Hm : moves_up (left_paddle 451) departing_high = true)
    by by_computation.
  split; [exact Hw | split; [exact Hm |]].
  apply (proj1 (proj1 (computer_accepts_short_of_ball hz60 (left_paddle 451)
                         departing_high quiet Hw) Hm)).
  split; by_computation.
Defined.

(** Beside C6.  The ball [sloped] meets the detector of the left
    paddle (centre 450, length 67) at the ordinate 442, and its own ordinate
    is 450.  The sector [return_ball] uses is 1/2: the value the formula
    gives for the ball's ordinate 450, not the value for the intersection
    (-173/134 with the source's offset 7, -120/67 with half the count); and
    450 is the centre of the paddle, for which the sector is 1/2, not 0. *)
Lemma sector_reads_ball_not_intersection :
  let p' := set_shape_position (left_paddle 450) (mkPoint 155 450) in
  (exists i r,
      Peq i (mkPoint 168 442)
      /\ outcome_of (update hz60 (left_paddle 450) sloped (m_position sloped)
                       (mkPoint 155 450) quiet)
         = Hit (return_ball hz60 p' sloped i r quiet))
  /\ py (m_position sloped) = py (m_shape_position p')
  /\ sector_hit p' sloped == 1 # 2
  /\ sector_at p' 442 == - 173 # 134
  /\ sector_spec p' 442 == - 120 # 67
  /\ ~ sector_hit p' sloped == sector_spec p' 442
  /\ ~ sector_hit p' sloped == sector_spec p' (py (m_shape_position p'))
  /\ sector_spec p' (py (m_shape_position p')) == 0.
Proof.
  cbv zeta. split.
  - assert (Hr : rejected (set_shape_position (left_paddle 450) (mkPoint 155 450))
                   sloped (m_position sloped)
                   (detector (left_paddle 450) (mkPoint 155 450)) = false)
      by by_computation.
    assert (Hn : not_equal 0 (delta_x sloped (m_position sloped)) = true)
      by by_computation.
    pose proof (update_sloped hz60 (left_paddle 450) sloped (m_position sloped)
                  (mkPoint 155 450) quiet Hr Hn) as Hu.
    cbv zeta in Hu. rewrite Hu by by_computation.
    eexists. eexists. split; [| reflexivity].
    split; by_computation.
  - conj_by_computation.
Qed.

(** C6.  The ball [Table.level] went from (175, 450) to (165, 450) and met
    the detector of the left paddle, whose centre is at 450, at (168, 450):
    a hit at the centre of the paddle.  [sector_hit] gives 1/2 for it, where
    half the sector count as offset gives 0: the source multiplies the
    clamped position by 15 and subtracts [15 / 2u], which is 7, without
    truncating to a sector index.  So it is for every paddle of 15 sectors
    and every ball level with its centre. *)
Theorem centre_hit_sector_is_half :
  let p' := set_shape_position (left_paddle 450) (mkPoint 155 450) in
  (exists i r,
      Peq i (mkPoint 168 450)
      /\ outcome_of (update hz60 (left_paddle 450) Table.level
                       (m_position Table.level) (mkPoint 155 450) quiet)
         = Hit (return_ball hz60 p' Table.level i r quiet))
  /\ py (m_position Table.level) = py (m_shape_position p')
  /\ sector_hit p' Table.level == 1 # 2
  /\ ~ sector_hit p' Table.level == 0
  /\ sector_spec p' 450 == 0
  /\ (forall p ball_,
        m_paddle_sectors p = 15%Z ->
        0 < m_paddle_length p ->
        py (m_position ball_) == py (m_shape_position p) ->
        sector_hit p ball_ == 1 # 2).
Proof.
  cbv zeta. split.
  - assert (Hr : rejected (set_shape_position (left_paddle 450) (mkPoint 155 450))
                   Table.level (m_position Table.level)
                   (detector (left_paddle 450) (mkPoint 155 450)) = false)
      by by_computation.
    assert (Hn : not_equal 0 (delta_x Table.level (m_position Table.level))
                 = true) by by_computation.
    pose proof (update_sloped hz60 (left_paddle 450) Table.level
                  (m_position Table.level) (mkPoint 155 450) quiet Hr Hn) as Hu.
    cbv zeta in Hu. rewrite Hu by by_computation.
    eexists. eexists. split; [| reflexivity].
    split; by_computation.
  - split; [by_computation |]. split; [by_computation |].
    split; [by_computation |]. split; [by_computation |].
    intros p ball_ Hs Hl Hy. apply centre_sector_is_half; assumption.
Qed.

(** * Further properties of the engine *)

(** ** The ball between misses *)

Section BallMore.

Variable P : Platform.

Lemma serve_position_on_table (b : Ball) (d : Draws) :
  table_ok b -> on_table b (serve_position P b d).
Proof.
  intros [Hx Hy]. unfold on_table, serve_position, new_ball. cbn.
  destruct (coin d); cbn; repeat split; lra.
Qed.

(** X1.  For a ball whose position is a number (not the NaN a colinear
    hit can leave): on a table that is not inside out, a frame of the ball
    that is not paused leaves the ball inside its bounds, wherever it
    started; a paused frame leaves it where it was.  The bounds themselves
    never change. *)
Theorem ball_stays_on_table (b : Ball) (s : Score) (dm dw : Draws) :
  table_ok b ->
  let b' := ball_of (Ball_update P b s dm dw) in
  (m_min b' = m_min b /\ m_max b' = m_max b)
  /\ (Qltb 0 (m_pause b) = false -> on_table b (m_position b'))
  /\ (Qltb 0 (m_pause b) = true -> m_position b' = m_position b).
Proof.
  intros Ht. cbv zeta. unfold Ball_update, ball_of.
  destruct (Qltb 0 (m_pause b)) eqn:Ep.
  { cbn. split; [split; reflexivity | split; [discriminate | reflexivity]]. }
  set (b0 := {| m_position := m_position b; m_angle := m_angle b;
                m_speed_increment := m_speed_increment b; m_speed := m_speed b;
                m_min := m_min b; m_max := m_max b; m_direction := m_direction b;
                m_previous_position := m_position b; m_pause := 0 |}).
  change (padd (m_position b) (pscale (m_speed b0) (Force P (m_angle b0))))
    with (candidate P b).
  destruct (out_x b0 (candidate P b)) eqn:Ex.
  - pose proof (serve_position_on_table b dm Ht) as Hs.
    pose proof (serve_position_inside P b dm (proj2 Ht)) as Hy.
    change (new_ball P b0 dm) with
      ({| m_position := m_position b0;
          m_angle := m_angle (fst (new_ball P b dm));
          m_speed_increment := m_speed_increment b0;
          m_speed := 10;
          m_min := m_min b0; m_max := m_max b0;
          m_direction := m_direction b0;
          m_previous_position := m_previous_position b0;
          m_pause := m_pause b0 |}, serve_position P b dm).
    cbv iota beta. unfold out_y in *. cbn [m_min m_max b0] in *.
    rewrite Hy. cbn.
    split; [split; reflexivity | split; [intros _; exact Hs | discriminate]].
  - unfold out_x in Ex. cbn [m_min m_max b0] in Ex.
    apply orb_false_iff in Ex. destruct Ex as [Ex1 Ex2].
    apply Qltb_false in Ex1, Ex2.
    destruct Ht as [Htx Hty].
    destruct (out_y b0 (candidate P b)) eqn:Ey; cbn.
    + split; [split; reflexivity | split; [intros _ | discriminate]].
      unfold on_table. subst b0. cbn [px py m_min m_max].
      split; [split; assumption |].
      match goal with
      | |- context [if ?c then _ else _] => destruct c
      end; split; lra.
    + split; [split; reflexivity | split; [intros _ | discriminate]].
      unfold out_y in Ey. cbn [m_min m_max b0] in Ey.
      apply orb_false_iff in Ey. destruct Ey as [Ey1 Ey2].
      apply Qltb_false in Ey1, Ey2.
      unfold on_table. repeat split; assumption.
Qed.

(** X3.  On a table that is not inside out, the speed of the ball changes in
    a frame only by a miss, which sets it to 10; the speed increment never
    changes. *)
Theorem speed_changes_only_by_miss (b : Ball) (s : Score) (dm dw : Draws) :
  table_ok b ->
  let r := Ball_update P b s dm dw in
  m_speed_increment (ball_of r) = m_speed_increment b
  /\ (event_of r <> Missed -> m_speed (ball_of r) = m_speed b)
  /\ (event_of r = Missed -> m_speed (ball_of r) = 10).
Proof.
  intros Ht. cbv zeta. unfold Ball_update, ball_of, event_of.
  destruct (Qltb 0 (m_pause b)) eqn:Ep.
  { cbn. split; [reflexivity | split; [reflexivity | discriminate]]. }
  set (b0 := {| m_position := m_position b; m_angle := m_angle b;
                m_speed_increment := m_speed_increment b; m_speed := m_speed b;
                m_min := m_min b; m_max := m_max b; m_direction := m_direction b;
                m_previous_position := m_position b; m_pause := 0 |}).
  change (padd (m_position b) (pscale (m_speed b0) (Force P (m_angle b0))))
    with (candidate P b).
  destruct (out_x b0 (candidate P b)) eqn:Ex.
  - pose proof (serve_position_inside P b dm (proj2 Ht)) as Hy.
    change (new_ball P b0 dm) with
      ({| m_position := m_position b0;
          m_angle := m_angle (fst (new_ball P b dm));
          m_speed_increment := m_speed_increment b0;
          m_speed := 10;
          m_min := m_min b0; m_max := m_max b0;
          m_direction := m_direction b0;
          m_previous_position := m_previous_position b0;
          m_pause := m_pause b0 |}, serve_position P b dm).
    cbv iota beta. unfold out_y in *. cbn [m_min m_max b0] in *.
    rewrite Hy. cbn.
    split; [reflexivity | split; [intro H; exfalso; apply H |]; reflexivity].
  - destruct (out_y b0 (candidate P b)); cbn;
      (split; [reflexivity | split; [reflexivity | discriminate]]).
Qed.

End BallMore.

Section BallPause.

Variable P : Platform.

Lemma Ball_update_paused (b : Ball) (s : Score) (dm dw : Draws) :
  Qltb 0 (m_pause b) = true ->
  Ball_update P b s dm dw = (EvNone, Ball_pause b (m_pause b - inc P), s).
Proof. intro H. unfold Ball_update. rewrite H. reflexivity. Qed.

Lemma inject_nat_nonneg (k : nat) : 0 <= inject_Z (Z.of_nat k).
Proof.
  change 0 with (inject_Z 0). rewrite <- Zle_Qle. apply Nat2Z.is_nonneg.
Qed.

Lemma inject_nat_succ (k : nat) :
  inject_Z (Z.of_nat (S k)) == inject_Z (Z.of_nat k) + 1.
Proof. rewrite Nat2Z.inj_succ. unfold Z.succ. rewrite inject_Z_plus. reflexivity. Qed.

(** X2.  With a per-frame quantum that is not negative, a ball whose pause
    countdown exceeds [n - 1] quanta is held for the next [n] frames: each of
    them returns [None], the score and the ball stay as they are, and the
    countdown has lost [n] quanta. *)
Theorem pause_holds_ball (n : nat) (b : Ball) (s : Score) (dm dw : Draws) :
  0 <= inc P ->
  inject_Z (Z.of_nat n) * inc P < m_pause b + inc P ->
  let r := Ball_frames P n b s dm dw in
  events_of r = repeat EvNone n
  /\ last_score r = s
  /\ m_position (last_ball r) = m_position b
  /\ m_previous_position (last_ball r) = m_previous_position b
  /\ m_angle (last_ball r) = m_angle b
  /\ m_direction (last_ball r) = m_direction b
  /\ m_speed (last_ball r) = m_speed b
  /\ m_pause (last_ball r) == m_pause b - inject_Z (Z.of_nat n) * inc P.
Proof.
  intros Hi. revert b s. induction n as [| k IH]; intros b s Hn; cbv zeta.
  - cbn. repeat split; try reflexivity. unfold inject_Z. lra.
  - pose proof (inject_nat_nonneg k) as Hk.
    pose proof (inject_nat_succ k) as Hs.
    assert (Hm : 0 <= inject_Z (Z.of_nat k) * inc P)
      by (apply Qmult_le_0_compat; assumption).
    assert (He : inject_Z (Z.of_nat (S k)) * inc P
                 == inject_Z (Z.of_nat k) * inc P + inc P)
      by (rewrite Hs; ring).
    assert (Hp : Qltb 0 (m_pause b) = true) by (apply Qltb_spec; lra).
    cbn [Ball_frames].
    rewrite (Ball_update_paused b s dm dw Hp).
    unfold ball_of, score_of, event_of. cbn [fst snd].
    specialize (IH (Ball_pause b (m_pause b - inc P)) s).
    cbv zeta in IH. cbn [m_pause Ball_pause] in IH.
    destruct IH as [E1 [E2 [E3 [E4 [E5 [E6 [E7 E8]]]]]]]; [lra |].
    destruct (Ball_frames P k (Ball_pause b (m_pause b - inc P)) s dm dw)
      as [[evs b'] s'] eqn:Ef.
    unfold events_of, last_ball, last_score in *. cbn [fst snd] in *.
    cbn [repeat]. rewrite E1.
    repeat split; try assumption; try reflexivity.
    rewrite E8, He. cbn [m_pause Ball_pause]. ring.
Qed.

End BallPause.

Section BallScore.

Variable P : Platform.

Lemma Ball_update_score_cases (b : Ball) (s : Score) (dm dw : Draws) :
  table_ok b ->
  let r := Ball_update P b s dm dw in
  (event_of r = Missed
   /\ ((m_left (score_of r) = (m_left s + 1)%Z /\ m_right (score_of r) = m_right s)
       \/ (m_left (score_of r) = m_left s
           /\ m_right (score_of r) = (m_right s + 1)%Z)))
  \/ (event_of r <> Missed /\ score_of r = s).
Proof.
  intros [Hx Hy]. cbv zeta.
  unfold Ball_update, event_of, score_of.
  destruct (Qltb 0 (m_pause b)).
  { right. cbn. split; [discriminate | reflexivity]. }
  set (b0 := {| m_position := m_position b; m_angle := m_angle b;
                m_speed_increment := m_speed_increment b; m_speed := m_speed b;
                m_min := m_min b; m_max := m_max b; m_direction := m_direction b;
                m_previous_position := m_position b; m_pause := 0 |}).
  change (padd (m_position b) (pscale (m_speed b0) (Force P (m_angle b0))))
    with (candidate P b).
  destruct (out_x b0 (candidate P b)) eqn:Ex.
  - left.
    pose proof (serve_position_inside P b dm Hy) as Hin.
    change (new_ball P b0 dm) with
      ({| m_position := m_position b0;
          m_angle := m_angle (fst (new_ball P b dm));
          m_speed_increment := m_speed_increment b0;
          m_speed := 10;
          m_min := m_min b0; m_max := m_max b0;
          m_direction := m_direction b0;
          m_previous_position := m_previous_position b0;
          m_pause := m_pause b0 |}, serve_position P b dm).
    cbv iota beta. unfold out_y in *. cbn [m_min m_max b0] in *.
    rewrite Hin. cbn [fst snd].
    split; [reflexivity |].
    destruct (out_x_one_side b0 (candidate P b) Hx Ex) as [[H1 H2] | [H1 H2]];
      cbn [m_min m_max b0] in H1, H2; rewrite H1, H2; cbn; [right | left];
      split; lia.
  - right. destruct (out_y b0 (candidate P b)); cbn;
      (split; [discriminate | reflexivity]).
Qed.

Lemma has_won_spec (s : Score) :
  has_won s = true <-> (11 <= m_left s \/ 11 <= m_right s)%Z.
Proof.
  unfold has_won. rewrite orb_true_iff, !Z.ltb_lt. lia.
Qed.

(** X4.  On a table that is not inside out, a frame of the ball never lowers
    a counter; a frame that returns [Missed] raises exactly one of the two
    by 1 (their sum grows by 1 and neither grows by more) and any other frame
    leaves the score as it is; a game that is won stays won, and a game is
    won, that is, a counter reaches 11, only in a frame that returns
    [Missed]. *)
Theorem game_is_won_by_a_miss (b : Ball) (s : Score) (dm dw : Draws) :
  table_ok b ->
  let r := Ball_update P b s dm dw in
  (m_left s <= m_left (score_of r) <= m_left s + 1)%Z
  /\ (m_right s <= m_right (score_of r) <= m_right s + 1)%Z
  /\ (event_of r = Missed ->
        (m_left (score_of r) + m_right (score_of r)
         = m_left s + m_right s + 1)%Z)
  /\ (event_of r <> Missed -> score_of r = s)
  /\ (has_won s = true -> has_won (score_of r) = true)
  /\ (has_won s = false -> has_won (score_of r) = true ->
        event_of r = Missed
        /\ (m_left (score_of r) = 11%Z \/ m_right (score_of r) = 11%Z)).
Proof.
  intros Ht. cbv zeta.
  pose proof (Ball_update_score_cases b s dm dw Ht) as Hc. cbv zeta in Hc.
  set (r := Ball_update P b s dm dw) in *.
  split; [| split; [| split; [| split; [| split]]]].
  - destruct Hc as [[_ [[H1 H2] | [H1 H2]]] | [_ H]]; try rewrite H; lia.
  - destruct Hc as [[_ [[H1 H2] | [H1 H2]]] | [_ H]]; try rewrite H; lia.
  - intro He.
    destruct Hc as [[_ [[H1 H2] | [H1 H2]]] | [Hn _]];
      [lia | lia | contradiction].
  - intro Hn.
    destruct Hc as [[He _] | [_ H]]; [contradiction | exact H].
  - rewrite !has_won_spec.
    destruct Hc as [[_ [[H1 H2] | [H1 H2]]] | [_ H]]; try rewrite H; lia.
  - intros Hn Hw. apply has_won_spec in Hw.
    assert (Hn' : ~ (11 <= m_left s \/ 11 <= m_right s)%Z).
    { intro H. apply has_won_spec in H. congruence. }
    destruct Hc as [[He [[H1 H2] | [H1 H2]]] | [_ H]].
    + split; [exact He | lia].
    + split; [exact He | lia].
    + rewrite H in Hw. contradiction.
Qed.

End BallScore.

Section BallServe.

Variable P : Platform.
Hypothesis pi_pos : 0 < pi P.

(** X5.  [new_ball] serves from the middle of the table in x, keeps the
    direction of travel, and by its coin either serves from 9/10 of the
    height with an angle in [0.66 pi, 0.78 pi] (shifted by pi when the ball
    moves to the left: [1.22 pi, 1.33 pi]) or from 1/10 of the height with an
    angle in [0.22 pi, 0.33 pi] (to the left: [1.66 pi, 1.78 pi]). *)
Theorem serve_pattern (b : Ball) (d : Draws) :
  0 <= unif d < 1 ->
  let a := serve_angle P b d in
  let pn := serve_position P b d in
  let h := py (m_max b) - py (m_min b) in
  px pn == (px (m_min b) + px (m_max b)) / 2
  /\ m_direction (fst (new_ball P b d)) = m_direction b
  /\ (coin d = true ->
        py pn == py (m_min b) + (9 # 10) * h
        /\ (m_direction b = MovesToLeft ->
              (122 # 100) * pi P <= a /\ a <= (133 # 100) * pi P)
        /\ (m_direction b <> MovesToLeft ->
              (66 # 100) * pi P <= a /\ a <= (78 # 100) * pi P))
  /\ (coin d = false ->
        py pn == py (m_min b) + (1 # 10) * h
        /\ (m_direction b = MovesToLeft ->
              (166 # 100) * pi P <= a /\ a <= (178 # 100) * pi P)
        /\ (m_direction b <> MovesToLeft ->
              (22 # 100) * pi P <= a /\ a <= (33 # 100) * pi P)).
Proof.
  intro Hu. cbv zeta. unfold serve_angle, serve_position, new_ball.
  cbn [fst snd px py m_angle m_direction].
  split; [field |]. split; [reflexivity |].
  split; intro Hc; rewrite Hc; cbn [bool_Q].
  - split; [ring |]. split; intro Hd.
    + apply Z.eqb_eq in Hd. rewrite Hd.
      apply UniDisf_bounds; [lra | exact Hu].
    + apply Z.eqb_neq in Hd. rewrite Hd.
      apply UniDisf_bounds; [lra | exact Hu].
  - split; [ring |]. split; intro Hd.
    + apply Z.eqb_eq in Hd. rewrite Hd.
      apply UniDisf_bounds; [lra | exact Hu].
    + apply Z.eqb_neq in Hd. rewrite Hd.
      apply UniDisf_bounds; [lra | exact Hu].
Qed.

End BallServe.

(** X6.  [Ball::create] on a table box at least as wide and as high as the
    ball: the bounds are the box drawn in by half the ball on every side,
    they are not inside out, the ball is put inside them, and its angle,
    direction and speed are those of the constructor. *)
Theorem created_ball_is_on_table (b : Ball) (box : FloatBox) (size : Q)
    (d1 d2 : Draws) :
  box_left box + size <= box_right box ->
  box_top box + size <= box_bottom box ->
  0 <= unif d1 < 1 -> 0 <= unif d2 < 1 ->
  let b' := Ball_create b box size d1 d2 in
  table_ok b'
  /\ on_table b' (m_position b')
  /\ (px (m_min b') == box_left box + size / 2
      /\ py (m_min b') == box_top box + size / 2
      /\ px (m_max b') == box_right box - size / 2
      /\ py (m_max b') == box_bottom box - size / 2)
  /\ m_angle b' = m_angle b /\ m_direction b' = m_direction b
  /\ m_speed b' = m_speed b.
Proof.
  intros Hw Hh Hu1 Hu2. cbv zeta.
  unfold table_ok, on_table, Ball_create.
  cbn [m_min m_max m_position m_angle m_direction m_speed px py].
  match goal with
  | |- context [UniDisf ?a ?c d1] =>
      pose proof (UniDisf_bounds a c d1 ltac:(lra) Hu1) as [Hx1 Hx2]
  end.
  match goal with
  | |- context [UniDisf ?a ?c d2] =>
      pose proof (UniDisf_bounds a c d2 ltac:(lra) Hu2) as [Hy1 Hy2]
  end.
  split; [split; lra |].
  split; [split; split; assumption |].
  split; [split; [field | split; [field | split; field]] |].
  split; [reflexivity | split; reflexivity].
Qed.

(** ** The collision test, further *)

Section CollisionMore.

Variable P : Platform.

Lemma update_hit_not_rejected (p : Paddle) (ball_ : Ball) (bp pp : Point)
    (db : Draws) :
  hit (outcome_of (update P p ball_ bp pp db)) = true ->
  rejected (set_shape_position p pp) ball_ bp (detector p pp) = false.
Proof.
  unfold update, outcome_of. cbv zeta.
  change (padd pp (m_paddle_detector_offset (set_shape_position p pp)))
    with (detector p pp).
  destruct (rejected _ _ _ _); [cbn; discriminate | reflexivity].
Qed.


(** X8.  A ball that moves away from the side of a paddle is never hit by
    it, wherever the ball and the paddle are: [Paddle::update] returns false,
    leaves the ball alone and divides nothing. *)
Theorem departing_ball_is_not_hit (p : Paddle) (ball_ : Ball) (bp pp : Point)
    (db : Draws) :
  moves_away p ball_ ->
  update P p ball_ bp pp db = (set_shape_position p pp, NoHit, []).
Proof.
  unfold moves_away. intro Ha. unfold update. cbv zeta.
  assert (Hr : rejected (set_shape_position p pp) ball_ bp
                 (padd pp (m_paddle_detector_offset (set_shape_position p pp)))
               = true).
  { unfold rejected. cbn [m_side set_shape_position].
    destruct (m_side p); rewrite Ha; reflexivity. }
  rewrite Hr. reflexivity.
Qed.

(** X9.  For a ball whose position and previous position are numbers (not
    NaN), a hit is reported only for a ball that does not move away from
    the paddle and whose last segment reaches the abscissa of the detector:
    for the left paddle the position is at or left of the detector and the
    previous position at or right of it, for the right paddle the other way
    round. *)
Theorem hit_needs_crossing (p : Paddle) (ball_ : Ball) (bp pp : Point)
    (db : Draws) :
  hit (outcome_of (update P p ball_ bp pp db)) = true ->
  ~ moves_away p ball_
  /\ match m_side p with
     | Left => px bp <= px (detector p pp)
               /\ px (detector p pp) <= px (m_previous_position ball_)
     | Right => px (m_previous_position ball_) <= px (detector p pp)
                /\ px (detector p pp) <= px bp
     end.
Proof.
  intro Hh. apply update_hit_not_rejected in Hh.
  unfold rejected in Hh. cbn [m_side set_shape_position] in Hh.
  unfold moves_away.
  destruct (m_side p);
    apply orb_false_iff in Hh; destruct Hh as [Hd Hx];
    apply orb_false_iff in Hx; destruct Hx as [H1 H2];
    apply Qltb_false in H1, H2; apply Z.eqb_neq in Hd;
    (split; [intro E; apply Hd; symmetry; exact E | split; assumption]).
Qed.


End CollisionMore.

Section Returns.

Variable P : Platform.




Lemma update_Hit_return (p : Paddle) (ball_ : Ball) (bp pp : Point) (db : Draws)
    (b' : Ball) :
  outcome_of (update P p ball_ bp pp db) = Hit b' ->
  rejected (set_shape_position p pp) ball_ bp (detector p pp) = false
  /\ exists i r, b' = return_ball P (set_shape_position p pp) ball_ i r db.
Proof.
  intro H. split.
  - apply (update_hit_not_rejected P p ball_ bp pp db). rewrite H. reflexivity.
  - apply (update_Hit_inv P p ball_ bp pp db b' H).
Qed.

(** X13.  Every hit raises the speed of the ball by exactly its speed
    increment and leaves the increment, the bounds, the previous position
    and the pause countdown of the ball as they were. *)
Theorem hit_adds_one_increment (p : Paddle) (ball_ : Ball) (bp pp : Point)
    (db : Draws) (b' : Ball) :
  outcome_of (update P p ball_ bp pp db) = Hit b' ->
  m_speed b' = m_speed ball_ + m_speed_increment ball_
  /\ m_speed_increment b' = m_speed_increment ball_
  /\ m_min b' = m_min ball_ /\ m_max b' = m_max ball_
  /\ m_previous_position b' = m_previous_position ball_
  /\ m_pause b' = m_pause ball_.
Proof.
  intro H. destruct (update_Hit_inv P p ball_ bp pp db b' H) as [i [r ->]].
  cbn. repeat split; reflexivity.
Qed.

Hypothesis pi_pos : 0 < pi P.

(** X14.  For a ball whose position and angle are numbers (not NaN) and a
    hit that returns it to a position that is a number, a hit turns the ball
    back.  The left paddle hits only a ball that
    does not move to the right and sends it to the right with an angle
    between 0.01 pi and 0.99 pi; the right paddle, hitting a ball that moves
    to the right, sends it to the left with an angle between 1.01 pi and
    1.99 pi. *)
Theorem hit_turns_ball_back (p : Paddle) (ball_ : Ball) (bp pp : Point)
    (db : Draws) (b' : Ball) :
  outcome_of (update P p ball_ bp pp db) = Hit b' ->
  match m_side p with
  | Left =>
      m_direction ball_ <> MovesToRight
      /\ m_direction b' = MovesToRight
      /\ (1 # 100) * pi P <= m_angle b' /\ m_angle b' <= (99 # 100) * pi P
  | Right =>
      m_direction ball_ <> MovesToLeft
      /\ (m_direction ball_ = MovesToRight ->
            m_direction b' = MovesToLeft
            /\ (101 # 100) * pi P <= m_angle b'
            /\ m_angle b' <= (199 # 100) * pi P)
  end.
Proof.
  intro H. destruct (update_Hit_return p ball_ bp pp db b' H) as [Hr [i [r ->]]].
  unfold rejected in Hr. cbn [m_side set_shape_position] in Hr.
  cbn [m_direction m_angle return_ball].
  unfold return_angle.
  destruct (m_side p) eqn:Es;
    apply orb_false_iff in Hr; destruct Hr as [Hd _].
  - rewrite Hd. cbn [bool_Q].
    apply Z.eqb_neq in Hd.
    match goal with
    | |- _ /\ direction_of_angle P (clamp ?v ?lo ?hi) = _ /\ _ =>
        pose proof (clamp_bounds v lo hi ltac:(lra)) as [Hlo Hhi];
        set (c := clamp v lo hi) in *
    end.
    split; [intro E; apply Hd; symmetry; exact E |].
    split; [apply direction_right; [exact pi_pos | lra | lra] |].
    split; lra.
  - apply Z.eqb_neq in Hd.
    split; [intro E; apply Hd; symmetry; exact E |].
    intro Er. rewrite Er. cbn [Z.eqb MovesToRight bool_Q].
    match goal with
    | |- direction_of_angle P (clamp ?v ?lo ?hi) = _ /\ _ =>
        pose proof (clamp_bounds v lo hi ltac:(lra)) as [Hlo Hhi];
        set (c := clamp v lo hi) in *
    end.
    split; [apply direction_left; [exact pi_pos | lra | lra] |].
    split; lra.
Qed.

End Returns.

(** ** The paddles, further *)

Section PaddlesMore.

Variable P : Platform.

(** X15.  For a paddle built by [Paddle::Paddle] and [Paddle::create], the
    detection zone put at a paddle position is the span of the paddle
    lengthened by half a ball at either end, and its abscissa is half a ball
    plus half a paddle size off the centre of the paddle, to the right for
    the left paddle and to the left for the right paddle. *)
Theorem detector_surrounds_paddle (odd1 : Q -> Q) (desktop_height : Z)
    (ball_size paddle_size : Q) (box : FloatBox) (side : Side)
    (window_height : Z) (pp : Point) :
  let p := Paddle_create P (Paddle_new odd1 desktop_height ball_size paddle_size)
             box side window_height in
  py (detector p pp) == (py pp - m_paddle_length p / 2) - ball_size / 2
  /\ py (detector p pp) + m_paddle_detector_length p
     == (py pp + m_paddle_length p / 2) + ball_size / 2
  /\ px (detector p pp)
     == px pp + (match side with Left => 1 | Right => - (1) end)
                * ((ball_size + paddle_size) / 2)
  /\ m_side p = side.
Proof.
  cbv zeta. unfold detector, Paddle_create, Paddle_new, padd.
  cbn [px py m_paddle_detector_offset m_paddle_length m_paddle_detector_length
       m_side].
  split; [field | split; [field | split; [| reflexivity]]].
  destruct side; cbn [Side_eqb]; field.
Qed.



Lemma update_computer_paused (p : Paddle) (ball_ : Ball) (dp db : Draws) :
  Qltb 0 (m_paddle_pause p) = true ->
  update_computer P p ball_ dp db
  = (Paddle_pause p (m_paddle_pause p - inc P), NoHit, []).
Proof. intro H. unfold update_computer. rewrite H. reflexivity. Qed.

(** X18.  With a per-frame quantum that is not negative, a computer paddle
    whose pause countdown exceeds [n - 1] quanta is held for the next [n]
    frames: it answers false each time, whatever the ball does, it stays
    where it is, and its countdown has lost [n] quanta. *)
Theorem pause_holds_paddle (n : nat) (p : Paddle) (ball_ : Ball)
    (dp db : Draws) :
  0 <= inc P ->
  inject_Z (Z.of_nat n) * inc P < m_paddle_pause p + inc P ->
  let r := computer_frames P n p ball_ dp db in
  fst r = repeat false n
  /\ m_shape_position (snd r) = m_shape_position p
  /\ m_paddle_pause (snd r) == m_paddle_pause p - inject_Z (Z.of_nat n) * inc P.
Proof.
  intros Hi. revert p. induction n as [| k IH]; intros p Hn; cbv zeta.
  - cbn. repeat split; try reflexivity. unfold inject_Z. lra.
  - pose proof (inject_nat_nonneg k) as Hk.
    pose proof (inject_nat_succ k) as Hs.
    assert (Hm : 0 <= inject_Z (Z.of_nat k) * inc P)
      by (apply Qmult_le_0_compat; assumption).
    assert (He : inject_Z (Z.of_nat (S k)) * inc P
                 == inject_Z (Z.of_nat k) * inc P + inc P)
      by (rewrite Hs; ring).
    assert (Hp : Qltb 0 (m_paddle_pause p) = true) by (apply Qltb_spec; lra).
    cbn [computer_frames].
    rewrite (update_computer_paused p ball_ dp db Hp).
    unfold paddle_of, outcome_of. cbn [fst snd hit].
    specialize (IH (Paddle_pause p (m_paddle_pause p - inc P))).
    cbv zeta in IH. cbn [m_paddle_pause Paddle_pause] in IH.
    destruct IH as [E1 [E2 E3]]; [lra |].
    destruct (computer_frames P k (Paddle_pause p (m_paddle_pause p - inc P))
                ball_ dp db) as [hs p'] eqn:Ef.
    cbn [fst snd] in *. cbn [repeat]. rewrite E1.
    split; [reflexivity | split; [exact E2 |]].
    rewrite E3, He. ring.
Qed.

End PaddlesMore.

(** ** The frame of the application, further *)

Section Frame.

Variable P : Platform.

Lemma update_player_ball (p : Paddle) (ball_ : Ball) (mouse_y : Q) (db : Draws)
    (b' : Ball) :
  outcome_of (update_player P p ball_ mouse_y db) = Hit b' ->
  m_pause b' = m_pause ball_.
Proof.
  unfold update_player. destruct (Qltb 0 (m_paddle_pause p)); [discriminate |].
  intro H. apply update_Hit_inv in H. destruct H as [i [r ->]]. reflexivity.
Qed.

Lemma update_computer_ball (p : Paddle) (ball_ : Ball) (dp db : Draws)
    (b' : Ball) :
  outcome_of (update_computer P p ball_ dp db) = Hit b' ->
  m_pause b' = m_pause ball_.
Proof.
  unfold update_computer. destruct (Qltb 0 (m_paddle_pause p)); [discriminate |].
  intro H. apply update_Hit_inv in H. destruct H as [i [r ->]]. reflexivity.
Qed.

(** X19.  In one frame of [App::update_state] the two paddles never both
    hit: when the player's paddle hits, the computer's paddle is paused
    before its own test, answers false and ends the frame with the hit pause
    less one quantum. *)
Theorem at_most_one_paddle_hits (a a' : App) (i : FrameInput)
    (sg : FrameSignals) :
  update_state P a i = Some (a', sg) ->
  sig_player_hit sg = true ->
  sig_computer_hit sg = false
  /\ m_paddle_pause (m_computer_paddle a') = hit_pause - inc P.
Proof.
  unfold update_state.
  set (r := Ball_update P (m_ball a) (m_score a) (in_miss i) (in_wall i)).
  destruct (match event_of r with
            | Missed =>
                (Ball_pause (ball_of r) miss_pause,
                 if (MovesToLeft =? m_direction (ball_of r))%Z
                 then Paddle_pause (m_computer_paddle a)
                        (miss_pause + hit_pause / 2)
                 else m_computer_paddle a)
            | _ => (ball_of r, m_computer_paddle a)
            end) as [ball computer].
  destruct (outcome_of (update_player P (m_player_paddle a) ball
                          (in_mouse_y i) (in_player_return i)))
    as [| b1 |] eqn:Ep; [| | discriminate].
  - destruct (outcome_of (update_computer P computer ball (in_computer i)
                            (in_computer_return i))) eqn:Ec;
      [| | discriminate];
      intro H; injection H as <- <-; cbn; discriminate.
  - assert (Hq : Qltb 0 (m_paddle_pause (Paddle_pause computer hit_pause)) = true)
      by reflexivity.
    rewrite (update_computer_paused P (Paddle_pause computer hit_pause) b1
               (in_computer i) (in_computer_return i) Hq).
    unfold outcome_of, paddle_of. cbn [fst snd].
    intro H. injection H as <- <-. intros _. cbn. split; reflexivity.
Qed.

(** X20.  A frame of [App::update_state] whose ball returns [Missed] ends
    with the ball paused for 500000; and when the served ball moves to the
    left and the player's paddle does not hit, the computer's paddle is
    paused too, answers false and ends the frame with 500000 plus half the
    hit pause, less one quantum. *)
Theorem miss_pauses_ball_and_computer (a a' : App) (i : FrameInput)
    (sg : FrameSignals) :
  update_state P a i = Some (a', sg) ->
  sig_event sg = Missed ->
  let r := Ball_update P (m_ball a) (m_score a) (in_miss i) (in_wall i) in
  event_of r = Missed
  /\ m_score a' = score_of r
  /\ m_pause (m_ball a') = miss_pause
  /\ (m_direction (ball_of r) = MovesToLeft ->
      sig_player_hit sg = false ->
      sig_computer_hit sg = false
      /\ m_paddle_pause (m_computer_paddle a')
         = miss_pause + hit_pause / 2 - inc P).
Proof.
  unfold update_state. cbv zeta.
  set (r := Ball_update P (m_ball a) (m_score a) (in_miss i) (in_wall i)).
  destruct (event_of r) eqn:Ee.
  1, 2: destruct (outcome_of (update_player P (m_player_paddle a) (ball_of r)
                                (in_mouse_y i) (in_player_return i)))
          as [| b1 |]; [| | discriminate];
        match goal with
        | |- context [outcome_of (update_computer P ?c ?b ?d1 ?d2)] =>
            destruct (outcome_of (update_computer P c b d1 d2));
              [| | discriminate]
        end;
        intro H; injection H as <- <-; cbn; discriminate.
  set (ball := Ball_pause (ball_of r) miss_pause).
  set (computer := if (MovesToLeft =? m_direction (ball_of r))%Z
                   then Paddle_pause (m_computer_paddle a)
                          (miss_pause + hit_pause / 2)
                   else m_computer_paddle a).
  destruct (outcome_of (update_player P (m_player_paddle a) ball
                          (in_mouse_y i) (in_player_return i)))
    as [| b1 |] eqn:Ep; [| | discriminate].
  - destruct (outcome_of (update_computer P computer ball (in_computer i)
                            (in_computer_return i))) as [| b2 |] eqn:Ec;
      [| | discriminate].
    + intro H. injection H as <- <-. intros _. cbn.
      split; [reflexivity | split; [reflexivity | split; [reflexivity |]]].
      intros Hd _. split; [reflexivity |].
      unfold computer. rewrite Hd, Z.eqb_refl.
      assert (Hq : Qltb 0 (m_paddle_pause
                             (Paddle_pause (m_computer_paddle a)
                                (miss_pause + hit_pause / 2))) = true)
        by reflexivity.
      rewrite (update_computer_paused P _ ball (in_computer i)
                 (in_computer_return i) Hq).
      reflexivity.
    + intro H. injection H as <- <-. intros _. cbn.
      split; [reflexivity | split; [reflexivity |]].
      split; [exact (update_computer_ball _ _ _ _ _ Ec) |].
      intros Hd _. exfalso.
      unfold computer in Ec. rewrite Hd, Z.eqb_refl in Ec.
      assert (Hq : Qltb 0 (m_paddle_pause
                             (Paddle_pause (m_computer_paddle a)
                                (miss_pause + hit_pause / 2))) = true)
        by reflexivity.
      rewrite (update_computer_paused P _ ball (in_computer i)
                 (in_computer_return i) Hq) in Ec.
      discriminate Ec.
  - assert (Hq : Qltb 0 (m_paddle_pause (Paddle_pause computer hit_pause)) = true)
      by reflexivity.
    rewrite (update_computer_paused P (Paddle_pause computer hit_pause) b1
               (in_computer i) (in_computer_return i) Hq).
    unfold outcome_of at 1. unfold paddle_of. cbn [fst snd].
    intro H. injection H as <- <-. intros _. cbn.
    split; [reflexivity | split; [reflexivity |]].
    split; [exact (update_player_ball _ _ _ _ _ Ep) |].
    intros _ Hf. discriminate Hf.
Qed.

End Frame.

(** ** The score display, further *)

(** X21.  For a score from 0 to 207 the character [Score::update_text]
    shows has the code 48 plus the score, so it is a decimal digit (codes 48
    to 57) exactly for the scores 0 to 9. *)
Theorem score_text_is_digit_up_to_nine (score_ : Z) :
  (0 <= score_ < 208)%Z ->
  Z.of_N (Ascii.N_of_ascii (update_text score_)) = (score_ + 48)%Z
  /\ ((48 <= Z.of_N (Ascii.N_of_ascii (update_text score_)) <= 57)%Z
      <-> (score_ <= 9)%Z).
Proof.
  intro H. unfold update_text.
  rewrite Z.mod_small by lia.
  rewrite Ascii.N_ascii_embedding by lia.
  rewrite Z2N.id by lia. split; [reflexivity | lia].
Qed.

(** X22.  With a texture that is not of negative width, the rectangles
    [Numbers::getRect] gives for the digits 0 to 9 lie side by side inside
    the texture: each starts where the one before ends, none reaches past
    the width of the texture, and all have the top 0 and the height of the
    texture. *)
Theorem digit_rects_tile_texture (texture : Sizes) (number_ : Z) :
  (0 <= width texture)%Z ->
  (0 <= number_ <= 9)%Z ->
  let m_sizes := Numbers_sizes texture in
  let r := getRect m_sizes number_ in
  (0 <= rect_left r)%Z
  /\ (rect_left r + rect_width r <= width texture)%Z
  /\ rect_left (getRect m_sizes (number_ + 1)) = (rect_left r + rect_width r)%Z
  /\ rect_top r = 0%Z /\ rect_height r = height texture.
Proof.
  intros Hw Hn. cbv zeta. unfold getRect, Numbers_sizes. cbn.
  pose proof (Z.mul_quot_le (width texture) 10 Hw ltac:(lia)) as Hq.
  assert (H0 : (0 <= Z.quot (width texture) 10)%Z)
    by (apply Z.quot_pos; lia).
  repeat split; nia.
Qed.

(** ** The further properties on the concrete table *)

Lemma ball_stays_on_table_witness :
  table_ok leaving_corner
  /\ Qltb 0 (m_pause leaving_corner) = false
  /\ on_table leaving_corner
       (m_position (ball_of (Ball_update hz60 leaving_corner zero_score
                               quiet quiet))).
Proof.
  assert (Ht : table_ok leaving_corner) by (split; by_computation).
  assert (Hp : Qltb 0 (m_pause leaving_corner) = false) by by_computation.
  split; [exact Ht | split; [exact Hp |]].
  exact (proj1 (proj2 (ball_stays_on_table hz60 leaving_corner zero_score
                         quiet quiet Ht)) Hp).
Defined.

Lemma pause_holds_ball_witness :
  0 <= inc hz60
  /\ inject_Z (Z.of_nat 30) * inc hz60 < m_pause Table.paused_ball + inc hz60
  /\ events_of (Ball_frames hz60 30 Table.paused_ball zero_score quiet quiet)
     = repeat EvNone 30.
Proof.
  assert (Hi : 0 <= inc hz60) by by_computation.
  assert (Hn : inject_Z (Z.of_nat 30) * inc hz60
               < m_pause Table.paused_ball + inc hz60) by by_computation.
  split; [exact Hi | split; [exact Hn |]].
  exact (proj1 (pause_holds_ball hz60 30 Table.paused_ball zero_score
                  quiet quiet Hi Hn)).
Defined.

Lemma speed_changes_only_by_miss_witness :
  table_ok at_bottom_wall
  /\ event_of (Ball_update hz60 at_bottom_wall zero_score quiet quiet) <> Missed
  /\ m_speed (ball_of (Ball_update hz60 at_bottom_wall zero_score quiet quiet))
     = m_speed at_bottom_wall.
Proof.
  assert (Ht : table_ok at_bottom_wall) by (split; by_computation).
  assert (He : event_of (Ball_update hz60 at_bottom_wall zero_score quiet quiet)
               <> Missed) by by_computation.
  split; [exact Ht | split; [exact He |]].
  exact (proj1 (proj2 (speed_changes_only_by_miss hz60 at_bottom_wall
                         zero_score quiet quiet Ht)) He).
Defined.

Lemma game_is_won_by_a_miss_witness :
  table_ok Table.leaving
  /\ has_won {| m_left := 10; m_right := 3 |} = false
  /\ has_won (score_of (Ball_update hz60 Table.leaving
                          {| m_left := 10; m_right := 3 |} quiet quiet)) = true
  /\ event_of (Ball_update hz60 Table.leaving
                 {| m_left := 10; m_right := 3 |} quiet quiet) = Missed.
Proof.
  assert (Ht : table_ok Table.leaving) by (split; by_computation).
  assert (Hn : has_won {| m_left := 10; m_right := 3 |} = false)
    by reflexivity.
  assert (Hw : has_won (score_of (Ball_update hz60 Table.leaving
                                    {| m_left := 10; m_right := 3 |}
                                    quiet quiet)) = true) by by_computation.
  split; [exact Ht | split; [exact Hn | split; [exact Hw |]]].
  exact (proj1 (proj2 (proj2 (proj2 (proj2 (proj2
           (game_is_won_by_a_miss hz60 Table.leaving
              {| m_left := 10; m_right := 3 |} quiet quiet Ht))))) Hn Hw)).
Defined.

Lemma serve_pattern_witness :
  0 < pi hz60
  /\ 0 <= unif quiet < 1
  /\ px (serve_position hz60 Table.leaving quiet)
     == (px (m_min Table.leaving) + px (m_max Table.leaving)) / 2.
Proof.
  assert (Hu : 0 <= unif quiet < 1) by (split; by_computation).
  split; [exact pi32_pos | split; [exact Hu |]].
  exact (proj1 (serve_pattern hz60 pi32_pos Table.leaving quiet Hu)).
Defined.

Lemma created_ball_is_on_table_witness :
  box_left Table.box + 15 <= box_right Table.box
  /\ box_top Table.box + 15 <= box_bottom Table.box
  /\ 0 <= unif quiet < 1
  /\ table_ok Table.ball.
Proof.
  assert (Hw : box_left Table.box + 15 <= box_right Table.box)
    by by_computation.
  assert (Hh : box_top Table.box + 15 <= box_bottom Table.box)
    by by_computation.
  assert (Hu : 0 <= unif quiet < 1) by (split; by_computation).
  split; [exact Hw | split; [exact Hh | split; [exact Hu |]]].
  exact (proj1 (created_ball_is_on_table (Ball_new hz60 quiet) Table.box 15
                  quiet quiet Hw Hh Hu Hu)).
Defined.

Lemma departing_ball_is_not_hit_witness :
  moves_away (left_paddle 451) departing_high
  /\ update hz60 (left_paddle 451) departing_high (m_position departing_high)
       (mkPoint 155 451) quiet
     = (set_shape_position (left_paddle 451) (mkPoint 155 451), NoHit, []).
Proof.
  assert (Ha : moves_away (left_paddle 451) departing_high) by reflexivity.
  split; [exact Ha |].
  exact (departing_ball_is_not_hit hz60 (left_paddle 451) departing_high
           (m_position departing_high) (mkPoint 155 451) quiet Ha).
Defined.

Lemma hit_needs_crossing_witness :
  hit (outcome_of (update hz60 (left_paddle 450) sloped (m_position sloped)
                     (mkPoint 155 450) quiet)) = true
  /\ px (m_position sloped) <= px (detector (left_paddle 450) (mkPoint 155 450))
  /\ px (detector (left_paddle 450) (mkPoint 155 450))
     <= px (m_previous_position sloped).
Proof.
  assert (Hh : hit (outcome_of (update hz60 (left_paddle 450) sloped
                                  (m_position sloped) (mkPoint 155 450) quiet))
               = true) by by_computation.
  split; [exact Hh |].
  exact (proj2 (hit_needs_crossing hz60 (left_paddle 450) sloped
                  (m_position sloped) (mkPoint 155 450) quiet Hh)).
Defined.



Lemma hit_adds_one_increment_witness :
  exists b',
    outcome_of (update hz60 (left_paddle 450) sloped (m_position sloped)
                  (mkPoint 155 450) quiet) = Hit b'
    /\ m_speed b' = m_speed sloped + m_speed_increment sloped.
Proof.
  assert (Ho : exists b',
             outcome_of (update hz60 (left_paddle 450) sloped
                           (m_position sloped) (mkPoint 155 450) quiet) = Hit b')
    by (vm_compute; eexists; reflexivity).
  destruct Ho as [b' Hb']. exists b'.
  split; [exact Hb' |].
  exact (proj1 (hit_adds_one_increment hz60 (left_paddle 450) sloped
                  (m_position sloped) (mkPoint 155 450) quiet b' Hb')).
Defined.

Lemma hit_turns_ball_back_witness :
  0 < pi hz60
  /\ exists b',
       outcome_of (update hz60 (left_paddle 450) sloped (m_position sloped)
                     (mkPoint 155 450) quiet) = Hit b'
       /\ m_direction sloped <> MovesToRight
       /\ m_direction b' = MovesToRight.
Proof.
  split; [exact pi32_pos |].
  assert (Ho : exists b',
             outcome_of (update hz60 (left_paddle 450) sloped
                           (m_position sloped) (mkPoint 155 450) quiet) = Hit b')
    by (vm_compute; eexists; reflexivity).
  destruct Ho as [b' Hb']. exists b'.
  pose proof (hit_turns_ball_back hz60 pi32_pos (left_paddle 450) sloped
                (m_position sloped) (mkPoint 155 450) quiet b' Hb')
    as [H1 [H2 _]].
  split; [exact Hb' | split; [exact H1 | exact H2]].
Defined.


Lemma pause_holds_paddle_witness :
  0 <= inc hz60
  /\ inject_Z (Z.of_nat 20) * inc hz60
     < m_paddle_pause Table.paused_computer + inc hz60
  /\ fst (computer_frames hz60 20 Table.paused_computer sloped quiet quiet)
     = repeat false 20.
Proof.
  assert (Hi : 0 <= inc hz60) by by_computation.
  assert (Hn : inject_Z (Z.of_nat 20) * inc hz60
               < m_paddle_pause Table.paused_computer + inc hz60)
    by by_computation.
  split; [exact Hi | split; [exact Hn |]].
  exact (proj1 (pause_holds_paddle hz60 20 Table.paused_computer sloped
                  quiet quiet Hi Hn)).
Defined.

Lemma at_most_one_paddle_hits_witness :
  exists a' sg,
    update_state hz60 (Table.app_with Table.near_player) (Table.input 540)
    = Some (a', sg)
    /\ sig_player_hit sg = true
    /\ sig_computer_hit sg = false.
Proof.
  assert (Ho : exists a' sg,
             update_state hz60 (Table.app_with Table.near_player)
               (Table.input 540) = Some (a', sg)
             /\ sig_player_hit sg = true)
    by (vm_compute; eexists; eexists; split; reflexivity).
  destruct Ho as [a' [sg [Hs Hh]]]. exists a', sg.
  split; [exact Hs | split; [exact Hh |]].
  exact (proj1 (at_most_one_paddle_hits hz60
                  (Table.app_with Table.near_player) a' (Table.input 540) sg
                  Hs Hh)).
Defined.

Lemma miss_pauses_ball_and_computer_witness :
  exists a' sg,
    update_state hz60 (Table.app_with Table.leaving) (Table.input 540)
    = Some (a', sg)
    /\ sig_event sg = Missed
    /\ m_pause (m_ball a') = miss_pause.
Proof.
  assert (Ho : exists a' sg,
             update_state hz60 (Table.app_with Table.leaving)
               (Table.input 540) = Some (a', sg)
             /\ sig_event sg = Missed)
    by (vm_compute; eexists; eexists; split; reflexivity).
  destruct Ho as [a' [sg [Hs He]]]. exists a', sg.
  split; [exact Hs | split; [exact He |]].
  exact (proj1 (proj2 (proj2
           (miss_pauses_ball_and_computer hz60
              (Table.app_with Table.leaving) a' (Table.input 540) sg Hs He)))).
Defined.

Lemma score_text_is_digit_up_to_nine_witness :
  (0 <= 7 < 208)%Z
  /\ Z.of_N (Ascii.N_of_ascii (update_text 7)) = (7 + 48)%Z.
Proof.
  assert (H : (0 <= 7 < 208)%Z) by lia.
  split; [exact H |].
  exact (proj1 (score_text_is_digit_up_to_nine 7 H)).
Defined.

Lemma digit_rects_tile_texture_witness :
  (0 <= width {| width := 205; height := 30 |})%Z
  /\ (0 <= 9 <= 9)%Z
  /\ (rect_left (getRect (Numbers_sizes {| width := 205; height := 30 |}) 9)
      + rect_width (getRect (Numbers_sizes {| width := 205; height := 30 |}) 9)
      <= width {| width := 205; height := 30 |})%Z.
Proof.
  assert (Hw : (0 <= width {| width := 205; height := 30 |})%Z) by (cbn; lia).
  assert (Hn : (0 <= 9 <= 9)%Z) by lia.
  split; [exact Hw | split; [exact Hn |]].
  exact (proj1 (proj2 (digit_rects_tile_texture
                         {| width := 205; height := 30 |} 9 Hw Hn))).
Defined.
